(** * pdb2cif: identifier codec, name normalisation and CIF chain aggregation

    A shallow embedding of [pdb2cif/pdb/types.py] and of the chain
    aggregation and entity blocks of [pdb2cif/pdb/files.py].

    Conventions of the embedding.
    - A Python [int] is a [Z] (unbounded, as in Python).
    - A Python [str] is a [string]; its characters are the code points
      below 256, so the Python character classes ([isspace], [isdigit])
      are written out for that range.
    - A Python exception is a value of [exn]; a method that can raise
      returns a [result].
    - A Python [dict] is an association list in insertion order: a new key
      is appended, an existing key is updated in place. *)

From Stdlib Require Import ZArith List String Ascii Lia Bool DecimalString.
From Stdlib Require Import DecimalPos.
Import ListNotations.

Open Scope string_scope.
Open Scope Z_scope.

(** ** Exceptions and results *)

Inductive exn : Type :=
| ValueError
| KeyError
| IndexError
| NotImplementedError.

Inductive result (A : Type) : Type :=
| Ok (a : A)
| Raise (e : exn).

Arguments Ok {A} a.
Arguments Raise {A} e.

Definition bind {A B : Type} (r : result A) (k : A -> result B) : result B :=
  match r with
  | Ok a => k a
  | Raise e => Raise e
  end.

Notation "x <- r ;; k" := (bind r (fun x => k))
  (at level 61, r at next level, right associativity).

(** ** Python dictionaries, in insertion order *)

Module Dict.

Section Dict.

Context {K V : Type} (eqb : K -> K -> bool).

Definition t : Type := list (K * V).

(** [d.get(k)] *)
Fixpoint get (k : K) (d : t) : option V :=
  match d with
  | [] => None
  | (k', v) :: d' => if eqb k k' then Some v else get k d'
  end.

(** [k in d] *)
Definition mem (k : K) (d : t) : bool :=
  match get k d with
  | Some _ => true
  | None => false
  end.

(** [d[k] = v]: an existing key keeps its place, a new one goes last. *)
Fixpoint set (k : K) (v : V) (d : t) : t :=
  match d with
  | [] => [(k, v)]
  | (k', v') :: d' =>
      if eqb k k' then (k', v) :: d' else (k', v') :: set k v d'
  end.

(** [d.keys()] and [d.items()] *)
Definition keys (d : t) : list K := map fst d.
Definition items (d : t) : list (K * V) := d.

End Dict.

(** [{v: k for k, v in d.items()}] *)
Definition invert {K V : Type} (eqb : V -> V -> bool) (d : list (K * V))
  : list (V * K) :=
  fold_left (fun acc kv => set eqb (snd kv) (fst kv) acc) d [].

End Dict.

(** ** The Python string primitives the code calls *)

Module Py.

Definition ord (c : ascii) : Z := Z.of_N (N_of_ascii c).
Definition chr (z : Z) : ascii := ascii_of_N (Z.to_N z).

Definition between (lo hi : Z) (c : ascii) : bool :=
  (lo <=? ord c) && (ord c <=? hi).

(** [c.isspace()] for a code point below 256. *)
Definition is_space (c : ascii) : bool :=
  between 9 13 c || between 28 32 c || (ord c =? 133) || (ord c =? 160).

(** An ASCII decimal digit. *)
Definition is_dec (c : ascii) : bool := between 48 57 c.

(** [c.isdigit()] for a code point below 256: the ASCII digits and the
    superscripts two, three and one.  The decimal digits of other scripts
    lie above 255, outside the strings of this embedding. *)
Definition is_digit (c : ascii) : bool :=
  is_dec c || (ord c =? 178) || (ord c =? 179) || (ord c =? 185).

Definition is_upper (c : ascii) : bool := between 65 90 c.
Definition is_lower (c : ascii) : bool := between 97 122 c.

Fixpoint all (p : ascii -> bool) (s : string) : bool :=
  match s with
  | EmptyString => true
  | String c s' => p c && all p s'
  end.

(** [s.isdigit()]: false on the empty string. *)
Definition isdigit (s : string) : bool :=
  match s with
  | EmptyString => false
  | _ => all is_digit s
  end.

Definition len (s : string) : Z := Z.of_nat (String.length s).

Fixpoint spaces (k : nat) : string :=
  match k with
  | O => EmptyString
  | S k' => String " " (spaces k')
  end.

(** [s.ljust(width, " ")] and [s.rjust(width, " ")]: no change when the
    string is already [width] long or longer. *)
Definition ljust (width : Z) (s : string) : string :=
  s ++ spaces (Z.to_nat (width - len s)).

Definition rjust (width : Z) (s : string) : string :=
  spaces (Z.to_nat (width - len s)) ++ s.

Fixpoint lstrip (s : string) : string :=
  match s with
  | EmptyString => EmptyString
  | String c s' => if is_space c then lstrip s' else s
  end.

Fixpoint rstrip (s : string) : string :=
  match s with
  | EmptyString => EmptyString
  | String c s' =>
      match rstrip s' with
      | EmptyString => if is_space c then EmptyString else String c EmptyString
      | r => String c r
      end
  end.

(** [s.strip()] *)
Definition strip (s : string) : string := rstrip (lstrip s).

(** [c in s] for a one-character [c]. *)
Fixpoint contains (c : ascii) (s : string) : bool :=
  match s with
  | EmptyString => false
  | String d s' => Ascii.eqb c d || contains c s'
  end.

(** [s.replace(c, "")] for a one-character [c]: every occurrence goes. *)
Fixpoint remove (c : ascii) (s : string) : string :=
  match s with
  | EmptyString => EmptyString
  | String d s' => if Ascii.eqb c d then remove c s' else String d (remove c s')
  end.

(** [str(n)] *)
Definition str (n : Z) : string := NilZero.string_of_int (Z.to_int n).

(** The value of a run of ASCII decimal digits read left to right. *)
Fixpoint int_digits (acc : Z) (s : string) : result Z :=
  match s with
  | EmptyString => Ok acc
  | String c s' =>
      if is_dec c then int_digits (acc * 10 + (ord c - 48)) s'
      else Raise ValueError
  end.

(** [int(s)] where the code calls it, on a string of digits.  A
    superscript digit passes [isdigit] and is refused here, as in
    Python.  The interpreter's cap on the length of the numeral
    ([sys.set_int_max_str_digits]) is not modelled. *)
Definition int (s : string) : result Z :=
  match s with
  | EmptyString => Raise ValueError
  | _ => int_digits 0 s
  end.


(** [filter(p, s)] joined back into a string. *)
Fixpoint filter (p : ascii -> bool) (s : string) : string :=
  match s with
  | EmptyString => EmptyString
  | String c s' => if p c then String c (filter p s') else filter p s'
  end.


(** [s.startswith(p)] *)
Fixpoint startswith (p s : string) : bool :=
  match p, s with
  | EmptyString, _ => true
  | String _ _, EmptyString => false
  | String a p', String b s' => Ascii.eqb a b && startswith p' s'
  end.

(** [s.replace(old, new)] for a non-empty [old]: the occurrences of [old]
    are found from the left and do not overlap; [skip] counts the
    characters of an occurrence still to pass over. *)
Fixpoint replace_from (skip : nat) (old new s : string) : string :=
  match s with
  | EmptyString => EmptyString
  | String c s' =>
      match skip with
      | S k => replace_from k old new s'
      | O =>
          if startswith old s
          then new ++ replace_from (Nat.pred (String.length old)) old new s'
          else String c (replace_from O old new s')
      end
  end.

Definition replace (old new s : string) : string := replace_from O old new s.

Fixpoint zeros (k : nat) : string :=
  match k with
  | O => EmptyString
  | S k' => String "0" (zeros k')
  end.

(** ["{:0{width}d}".format(n, width=width)]: the sign, then zeros up to
    [width] characters in all, then the digits; a negative [width] makes
    the format specifier invalid. *)
Definition format_0d (n width : Z) : result string :=
  if width <? 0 then Raise ValueError
  else
    let sign := if n <? 0 then "-" else EmptyString in
    let digits := str (Z.abs n) in
    Ok (sign ++ zeros (Z.to_nat (width - len sign - len digits)) ++ digits).

End Py.

(** ** [pdb2cif/pdb/utils.py]: the hybrid-36 codec *)

Module Utils.

Definition digits_upper : string := "0123456789ABCDEFGHIJKLMNOPQRSTUVWXYZ".
Definition digits_lower : string := "0123456789abcdefghijklmnopqrstuvwxyz".

(** The character of [alphabet] at position [d]. *)
Definition digit_char (alphabet : string) (d : Z) : ascii :=
  match String.get (Z.to_nat d) alphabet with
  | Some c => c
  | None => "0"%char
  end.

(** The position of [c] in [alphabet], counting from [i]. *)
Fixpoint digit_value_from (i : Z) (alphabet : string) (c : ascii) : option Z :=
  match alphabet with
  | EmptyString => None
  | String d rest =>
      if Ascii.eqb c d then Some i else digit_value_from (i + 1) rest c
  end.

Definition digit_value (alphabet : string) (c : ascii) : option Z :=
  digit_value_from 0 alphabet c.

(** [k] digits of [n] in base [b], most significant first, zero padded. *)
Fixpoint render (alphabet : string) (b : Z) (k : nat) (n : Z) : string :=
  match k with
  | O => EmptyString
  | S k' =>
      render alphabet b k' (n / b)
      ++ String (digit_char alphabet (n mod b)) EmptyString
  end.

(** The value of [s] in base [b], read left to right from [acc]. *)
Fixpoint parse (alphabet : string) (b : Z) (acc : Z) (s : string) : result Z :=
  match s with
  | EmptyString => Ok acc
  | String c s' =>
      match digit_value alphabet c with
      | Some d => parse alphabet b (acc * b + d) s'
      | None => Raise ValueError
      end
  end.

(** Modelled from the spec: [int_2_h36] of [pdb2cif/pdb/utils.py], which
    is not among the sources.  The encoding rule of the hybrid-36 scheme
    at width [w]: zero-padded decimal below [10^w]; then 26 blocks led by
    an upper-case letter with the remaining [w-1] characters in base 36
    over [0-9A-Z]; then 26 blocks led by a lower-case letter over
    [0-9a-z]; an error beyond.  The width is a positive integer. *)
Definition int_2_h36 (number : Z) (width : Z) : result string :=
  let w := Z.to_nat width in
  let block := 36 ^ (width - 1) in
  if (0 <=? number) && (number <? 10 ^ width) then
    Ok (render digits_upper 10 w number)
  else if (10 ^ width <=? number) && (number <? 10 ^ width + 26 * block) then
    let m := number - 10 ^ width in
    Ok (String (Py.chr (Py.ord "A" + m / block))
               (render digits_upper 36 (Nat.pred w) (m mod block)))
  else if (10 ^ width + 26 * block <=? number)
          && (number <? 10 ^ width + 52 * block) then
    let m := number - 10 ^ width - 26 * block in
    Ok (String (Py.chr (Py.ord "a" + m / block))
               (render digits_lower 36 (Nat.pred w) (m mod block)))
  else Raise ValueError.

(** Modelled from the spec: the inverse of the hybrid regime, the last
    step of the decoding rule.  The case of the leading character selects
    the 26-letter block, the remaining characters are read in base 36 over
    that case's alphabet, and the offset [10^w] or [10^w + 26*36^(w-1)] is
    added, [w] being the length of the string.  A character outside the
    alphabet of the detected case, or a leading character that is not a
    letter, is an error. *)
Definition hybrid_2_int (s : string) : result Z :=
  match s with
  | EmptyString => Raise ValueError
  | String c rest =>
      let width := Py.len s in
      let block := 36 ^ (width - 1) in
      if Py.is_upper c then
        v <- parse digits_upper 36 0 rest ;;
        Ok (10 ^ width + (Py.ord c - Py.ord "A") * block + v)
      else if Py.is_lower c then
        v <- parse digits_lower 36 0 rest ;;
        Ok (10 ^ width + 26 * block + (Py.ord c - Py.ord "a") * block + v)
      else Raise ValueError
  end.

(** Modelled from the spec: [h36_2_int] of [pdb2cif/pdb/utils.py], which
    is not among the sources.  The whole decoding rule: strip the leading
    and trailing whitespace; a remaining string that is entirely decimal
    digits is parsed as plain decimal; any other is decoded by the inverse
    of the hybrid regime. *)
Definition h36_2_int (s : string) : result Z :=
  let s := Py.strip s in
  if Py.isdigit s then Py.int s else hybrid_2_int s.

End Utils.

(** ** [pdb2cif/pdb/types.py] *)

(** The argument of a [Number] or [ChainID] constructor, typed
    [Union[int, str]]; [PyOther] stands for a value of any other type. *)
Inductive py_input : Type :=
| PyInt (n : Z)
| PyStr (s : string)
| PyOther.

Module Number.

Section Decoder.

(** The hybrid-36 decoder the module imports from [utils]. *)
Variable h36_2_int : string -> result Z.

(** [Number._convert_input].  The value of [inpt.strip()] is dropped:
    Python strings are immutable, so [inpt] is unchanged by that
    statement and the digit test sees the string as it was given. *)
Definition _convert_input_with (inpt : py_input) : result Z :=
  match inpt with
  | PyInt n => Ok n
  | PyStr s =>
      let _ := Py.strip s in
      if Py.isdigit s then Py.int s else h36_2_int s
  | PyOther => Raise NotImplementedError
  end.

End Decoder.

Definition _convert_input : py_input -> result Z :=
  _convert_input_with Utils.h36_2_int.

Record t : Type := { n : Z }.

(** The constructor: [__post_init__] sets [self.n]. *)
Definition make (inpt : py_input) : result t :=
  v <- _convert_input inpt ;; Ok {| n := v |}.

Definition as_h36 (self : t) (width : Z) : result string :=
  Utils.int_2_h36 (n self) width.

Definition as_pdb4namd (self : t) (width : Z) : result string :=
  as_h36 self width.

Definition as_str (self : t) : string := Py.str (n self).

End Number.

Module AtomName.

Definition NAMD : Dict.t (K := string) (V := string) :=
  [("O1P", "OP1"); ("O2P", "OP2"); ("C5M", "C7")].

Definition _convert_input (ipt : string) : string :=
  let ipt := Py.strip ipt in
  match Dict.get String.eqb ipt NAMD with
  | Some v => v
  | None => ipt
  end.

Record t : Type := { name : string }.

Definition make (input : string) : t := {| name := _convert_input input |}.

Definition as_pdb4namd (self : t) (width : Z) : string :=
  let opt := name self in
  let DMNA := Dict.invert String.eqb NAMD in
  let namePDB :=
    match Dict.get String.eqb opt DMNA with
    | Some v => v
    | None => opt
    end in
  if Py.len namePDB =? 1 then Py.rjust width (Py.ljust 2 namePDB)
  else if Py.len namePDB =? 2 then Py.rjust width (Py.ljust 1 namePDB)
  else Py.rjust width namePDB.


Definition dquote : ascii := "034"%char.

Definition as_cif (self : t) : string :=
  if Py.contains "'" (name self)
  then String dquote (name self ++ String dquote EmptyString)
  else name self.

Definition as_str (self : t) : string := name self.

End AtomName.

Module ResName.

Definition NAMD : Dict.t (K := string) (V := string) :=
  [("CYT", "DC"); ("GUA", "DG"); ("THY", "DT"); ("ADE", "DA")].

Definition _convert_input (inpt : string) : string :=
  let inpt := Py.strip inpt in
  let inpt :=
    if Py.contains "5" inpt then Py.remove "5" inpt
    else if Py.contains "3" inpt then Py.remove "3" inpt
    else inpt in
  match Dict.get String.eqb inpt NAMD with
  | Some v => v
  | None => inpt
  end.

Record t : Type := { name : string }.

Definition make (input : string) : t := {| name := _convert_input input |}.

Definition as_pdb4namd (self : t) (width : Z) : result string :=
  let DMNA := Dict.invert String.eqb NAMD in
  match Dict.get String.eqb (name self) DMNA with
  | Some v => Ok (Py.rjust width v)
  | None => Raise KeyError
  end.

Definition as_str (self : t) : string := name self.

(** The last character of a string, [s[-1]]. *)
Fixpoint last_char (s : string) : option ascii :=
  match s with
  | EmptyString => None
  | String c EmptyString => Some c
  | String _ s' => last_char s'
  end.

Definition as_X (self : t) : result string :=
  match last_char (name self) with
  | Some c => Ok (String c EmptyString)
  | None => Raise IndexError
  end.

End ResName.

Module ChainID.

(** [ChainID._convert_input]: the same text as [Number._convert_input]. *)
Definition _convert_input_with (h36_2_int : string -> result Z)
    (inpt : py_input) : result Z :=
  match inpt with
  | PyInt n => Ok n
  | PyStr s =>
      let _ := Py.strip s in
      if Py.isdigit s then Py.int s else h36_2_int s
  | PyOther => Raise NotImplementedError
  end.

Definition _convert_input : py_input -> result Z :=
  _convert_input_with Utils.h36_2_int.

Record t : Type := { n : Z }.

Definition make (inpt : py_input) : result t :=
  v <- _convert_input inpt ;; Ok {| n := v |}.

Definition alphabet : string := "ABCDEFGHIJ".

Definition as_pdb4namd (self : t) (width : Z) : result string :=
  match Py.str (n self) with
  | EmptyString => Raise IndexError
  | String c _ =>
      nlast <- Py.int (String c EmptyString) ;;
      match String.get (Z.to_nat nlast) alphabet with
      | Some n2char => Ok (Py.rjust width (String n2char EmptyString))
      | None => Raise IndexError
      end
  end.

Definition as_segName4namd (self : t) (width : Z) : result string :=
  Py.format_0d (n self) width.

Definition as_str (self : t) : string := Py.str (n self).

End ChainID.

(** ** [pdb2cif/pdb/files.py] *)

(** The fields of an atom of [structure.py] that the CIF aggregation reads. *)
Record Atom : Type := {
  atom_name : AtomName.t;
  res_name : ResName.t;
  chain_id : ChainID.t;
  res_number : Number.t
}.

Record Structure : Type := {
  name : string;
  atoms : list Atom
}.

(** An output file: the strings written to it so far, and what a block of
    statements leaves behind, a value or an exception. *)
Definition TextIO : Type := list string.
Definition io (A : Type) : Type := TextIO -> result A * TextIO.

Definition io_ret {A : Type} (a : A) : io A := fun out => (Ok a, out).

Definition io_bind {A B : Type} (m : io A) (k : A -> io B) : io B :=
  fun out =>
    match m out with
    | (Ok a, out') => k a out'
    | (Raise e, out') => (Raise e, out')
    end.

Definition io_lift {A : Type} (r : result A) : io A := fun out => (r, out).

(** [file_out.write(s)] *)
Definition write (s : string) : io unit := fun out => (Ok tt, (out ++ [s])%list).

Notation "x <~ m ;;; k" := (io_bind m (fun x => k))
  (at level 61, m at next level, right associativity).
Notation "m ;;; k" := (io_bind m (fun _ => k))
  (at level 61, right associativity).

(** [for x in l: body(x)] *)
Fixpoint for_each {A : Type} (l : list A) (body : A -> io unit) : io unit :=
  match l with
  | [] => io_ret tt
  | x :: l' => body x ;;; for_each l' body
  end.

(** [[f(s) for s in l]] where [f] can raise. *)
Fixpoint map_result {A B : Type} (f : A -> result B) (l : list A)
  : result (list B) :=
  match l with
  | [] => Ok []
  | x :: l' => y <- f x ;; ys <- map_result f l' ;; Ok (y :: ys)
  end.

Module CIF.

Definition nl : string := String "010"%char EmptyString.

Definition anchor : string := "C3'".

(** One turn of the loop of [_get_chains_seqs]. *)
Definition step (st : Dict.t (K := Z) (V := Z)
                      * Dict.t (K := Z) (V := list ResName.t))
    (a : Atom) :=
  let '(chains, seqs) := st in
  let chain_id := ChainID.n (chain_id a) in
  let res_number := Number.n (res_number a) in
  let chains :=
    match Dict.get Z.eqb chain_id chains with
    | None => Dict.set Z.eqb chain_id res_number chains
    | Some cur =>
        if res_number >? cur then Dict.set Z.eqb chain_id res_number chains
        else chains
    end in
  let seqs :=
    match Dict.get Z.eqb chain_id seqs with
    | None => Dict.set Z.eqb chain_id [res_name a] seqs
    | Some seq => Dict.set Z.eqb chain_id (seq ++ [res_name a])%list seqs
    end in
  (chains, seqs).

Definition is_C3p (a : Atom) : bool :=
  String.eqb (AtomName.as_str (atom_name a)) anchor.

Definition _get_chains_seqs (struct : Structure)
  : Dict.t (K := Z) (V := Z) * Dict.t (K := Z) (V := list ResName.t) :=
  let C3ps := filter is_C3p (atoms struct) in
  fold_left step C3ps ([], []).

Record t : Type := {
  struct : Structure;
  chains : Dict.t (K := Z) (V := Z);
  seqs : Dict.t (K := Z) (V := list ResName.t)
}.

(** The constructor: [__post_init__] fills [chains] and [seqs]. *)
Definition make (s : Structure) : t :=
  let '(c, q) := _get_chains_seqs s in
  {| struct := s; chains := c; seqs := q |}.

Section Resources.

(** The template texts behind [get_resource], and the chain label of
    [utils.int_2_chimeraSegID]; neither is among the sources. *)
Variables entity_txt entity_src_txt entity_poly_txt : string.
Variable int_2_chimeraSegID : Z -> result string.

Definition _write_entity (self : t) : io unit :=
  let entity := entity_txt in
  write entity ;;;
  for_each (Dict.items (chains self)) (fun '(chain_id, length) =>
    let is_staple := length <? 500 in
    let n := Py.ljust 4 (Py.str chain_id) in
    let src := if is_staple then "syn" else "?  " in
    let typ := if is_staple then "'STAPLE STRAND'  "
               else "'SCAFFOLD STRAND'" in
    write (n ++ " polymer " ++ src ++ " " ++ typ ++ " ?   1 ? ? ? ?" ++ nl)).

Definition _write_entity_src (self : t) : io unit :=
  let entity_src := entity_src_txt in
  write entity_src ;;;
  for_each (Dict.items (chains self)) (fun '(chain_id, length) =>
    let is_staple := length <? 500 in
    let n := Py.ljust 4 (Py.str chain_id) in
    let typ := if is_staple then "'synthetic construct'"
               else Py.ljust 21 "?" in
    let tax := if is_staple then "32630" else Py.ljust 5 "?" in
    write (n ++ "   1 sample 1 " ++ Py.ljust 5 (Py.str length) ++ " "
             ++ typ ++ " ? " ++ tax ++ " ?" ++ nl)).

Definition as_chimera (c : ChainID.t) : result string :=
  int_2_chimeraSegID (ChainID.n c - 1).

Definition _write_entity_poly (self : t) : io unit :=
  let entity_poly := entity_poly_txt in
  write entity_poly ;;;
  for_each (Dict.items (seqs self)) (fun '(chain_id, seq) =>
    let n := Py.ljust 4 (Py.str chain_id) in
    c <~ io_lift (ChainID.make (PyInt chain_id)) ;;;
    cid <~ io_lift (as_chimera c) ;;;
    let seq1 :=
      String.concat "" (map (fun s => "(" ++ ResName.as_str s ++ ")") seq) in
    xs <~ io_lift (map_result ResName.as_X seq) ;;;
    let seq2 := String.concat "" xs in
    write (n ++ " polydeoxyribonucleotide no no" ++ nl ++ ";" ++ seq1 ++ nl
             ++ ";" ++ nl ++ seq2 ++ " " ++ cid ++ " ?" ++ nl)).

End Resources.

Section Document.

(** The remaining template texts behind [get_resource]. *)
Variables header_txt pdbx_struct_txt atom_header_txt : string.
Variables entity_txt entity_src_txt entity_poly_txt : string.
Variable int_2_chimeraSegID : Z -> result string.

(** [self_atoms] is [self.atoms], the lines that [Atom.as_cif] of
    [structure.py] renders when the emitter is built. *)
Definition _write_atoms (self_atoms : list string) : io unit :=
  let atom_header := atom_header_txt in
  write atom_header ;;;
  for_each self_atoms write.

Definition _write_header (self : t) : io unit :=
  let header := header_txt in
  write ("data_" ++ name (struct self) ++ nl) ;;;
  write header.

Definition _write_pdbx_struct (self : t) : io unit :=
  let pdbx_struct := pdbx_struct_txt in
  let pdbx_struct :=
    Py.replace "NCHAINS" (Py.str (Z.of_nat (List.length (chains self))))
      pdbx_struct in
  write pdbx_struct.

Definition write (self : t) (self_atoms : list string) : io unit :=
  _write_header self ;;;
  _write_pdbx_struct self ;;;
  _write_atoms self_atoms ;;;
  _write_entity entity_txt self ;;;
  _write_entity_src entity_src_txt self ;;;
  _write_entity_poly entity_poly_txt int_2_chimeraSegID self.

End Document.

End CIF.

Module PDB.

Definition box : string := "1000.000 1000.000 1000.000".

Definition _header : list string := ["HEADER   "].
Definition _authors : list string := ["AUTHOR   "].
Definition _remarks : list string := ["REMARK   "].

Definition _box : list string :=
  let angles := "90.00  90.00  90.00" in
  let space_group := "P 1" in
  let z_value := "1" in
  ["CRYST1 " ++ box ++ "  " ++ angles ++ " " ++ space_group
     ++ "           " ++ z_value].

(** [atom_lines] is [self._atoms()], the lines that [Atom.as_pdb] of
    [structure.py] renders. *)
Definition write (atom_lines : list string) : io unit :=
  for_each [_header; _authors; _remarks; _box; atom_lines]
    (fun part => for_each part write).

End PDB.

(** * Vocabulary of the properties *)

(** ** The hybrid-36 codec *)

(** The leading character of [s] satisfies [p]. *)
Definition leading (p : ascii -> bool) (s : string) : bool :=
  match s with
  | EmptyString => false
  | String c _ => p c
  end.

(** ** Decoding an identifier from a string *)

(** The decoding rule in the words of the specification: strip, then
    plain decimal for a string of digits, the hybrid decoder otherwise. *)
Definition decode_stripped (h36_2_int : string -> result Z) (s : string)
  : result Z :=
  let s' := Py.strip s in
  if Py.isdigit s' then Py.int s' else h36_2_int s'.

(** ** Chain labels *)

(** The single-letter code in the words of the specification: the last
    decimal digit of [n + 1] through the alphabet. *)
Definition single_letter_of_successor (n : Z) (width : Z) : string :=
  Py.rjust width
    (String (Utils.digit_char ChainID.alphabet ((n + 1) mod 10)) EmptyString).

(** The same with the last decimal digit of [n] itself. *)
Definition single_letter_of_last_digit (n : Z) (width : Z) : string :=
  Py.rjust width
    (String (Utils.digit_char ChainID.alphabet (n mod 10)) EmptyString).

(** ** Residue names *)

(** The table lookup that ends [ResName._convert_input]. *)
Definition resname_lookup (s : string) : string :=
  match Dict.get String.eqb s ResName.NAMD with
  | Some v => v
  | None => s
  end.

(** ** Atom names in the legacy form *)

(** The name after the inverse table, as [as_pdb4namd] computes it. *)
Definition legacy_name (self : AtomName.t) : string :=
  match Dict.get String.eqb (AtomName.name self)
          (Dict.invert String.eqb AtomName.NAMD) with
  | Some v => v
  | None => AtomName.name self
  end.

(** The padding in the words of the specification: one trailing space for
    a name of one or of two characters, none for a longer one. *)
Definition as_pdb4namd_padded (self : AtomName.t) (width : Z) : string :=
  let namePDB := legacy_name self in
  if Py.len namePDB =? 1 then Py.rjust width (namePDB ++ " ")
  else if Py.len namePDB =? 2 then Py.rjust width (namePDB ++ " ")
  else Py.rjust width namePDB.

(** ** The chain aggregation *)

(** The chain number and the residue number of an atom. *)
Definition chain_of (a : Atom) : Z := ChainID.n (chain_id a).
Definition resnum_of (a : Atom) : Z := Number.n (res_number a).
Definition in_chain (c : Z) (a : Atom) : bool := chain_of a =? c.

(** The anchor atoms of a structure, and those of one chain, in document
    order. *)
Definition anchors (s : Structure) : list Atom :=
  filter CIF.is_C3p (atoms s).

Definition anchors_of (c : Z) (s : Structure) : list Atom :=
  filter (in_chain c) (anchors s).

(** The elements of a list in the order of their first appearance. *)
Fixpoint first_seen (l : list Z) : list Z :=
  match l with
  | [] => []
  | x :: t => x :: filter (fun y => negb (y =? x)) (first_seen t)
  end.

(** The greatest element of a list, if it has one. *)
Definition list_max (l : list Z) : option Z :=
  match l with
  | [] => None
  | x :: t => Some (fold_left Z.max t x)
  end.

(** What the two dictionaries hold after the loop has run over [l]. *)
Record aggregated (l : list Atom)
    (chains : Dict.t (K := Z) (V := Z))
    (seqs : Dict.t (K := Z) (V := list ResName.t)) : Prop := {
  agg_keys_chains : Dict.keys chains = first_seen (map chain_of l);
  agg_keys_seqs : Dict.keys seqs = first_seen (map chain_of l);
  agg_seqs : forall c,
    Dict.get Z.eqb c seqs
    = match filter (in_chain c) l with
      | [] => None
      | l' => Some (map res_name l')
      end;
  agg_chains : forall c,
    Dict.get Z.eqb c chains
    = list_max (map resnum_of (filter (in_chain c) l))
}.

(** ** The entity blocks *)

(** The rows of the two blocks, as they are printed. *)
Definition staple_entity_row (chain_id : Z) : string :=
  Py.ljust 4 (Py.str chain_id)
  ++ " polymer syn 'STAPLE STRAND'   ?   1 ? ? ? ?" ++ CIF.nl.

Definition scaffold_entity_row (chain_id : Z) : string :=
  Py.ljust 4 (Py.str chain_id)
  ++ " polymer ?   'SCAFFOLD STRAND' ?   1 ? ? ? ?" ++ CIF.nl.

Definition staple_src_row (chain_id length : Z) : string :=
  Py.ljust 4 (Py.str chain_id) ++ "   1 sample 1 "
  ++ Py.ljust 5 (Py.str length) ++ " 'synthetic construct' ? 32630 ?" ++ CIF.nl.

Definition scaffold_src_row (chain_id length : Z) : string :=
  Py.ljust 4 (Py.str chain_id) ++ "   1 sample 1 "
  ++ Py.ljust 5 (Py.str length) ++ " ?                     ? ?     ?" ++ CIF.nl.

(** A chain and its row in each block: a staple below 500, a scaffold
    from 500 on. *)
Inductive chain_rows : Z * Z -> string -> string -> Prop :=
| rows_staple (chain_id length : Z) :
    length < 500 ->
    chain_rows (chain_id, length)
      (staple_entity_row chain_id) (staple_src_row chain_id length)
| rows_scaffold (chain_id length : Z) :
    500 <= length ->
    chain_rows (chain_id, length)
      (scaffold_entity_row chain_id) (scaffold_src_row chain_id length).

(** The rows of the two blocks, chain by chain. *)
Inductive block_rows : list (Z * Z) -> list string -> list string -> Prop :=
| block_nil : block_rows [] [] []
| block_cons c r r' cs rs rs' :
    chain_rows c r r' -> block_rows cs rs rs' ->
    block_rows (c :: cs) (r :: rs) (r' :: rs').

(** A structure of two chains of one anchor atom each, with residue
    numbers 499 and 500. *)
Definition boundary_structure : Structure :=
  {| name := "boundary";
     atoms :=
       [ {| atom_name := AtomName.make "C3'"; res_name := ResName.make "ADE";
            chain_id := {| ChainID.n := 1 |};
            res_number := {| Number.n := 499 |} |};
         {| atom_name := AtomName.make "C3'"; res_name := ResName.make "THY";
            chain_id := {| ChainID.n := 2 |};
            res_number := {| Number.n := 500 |} |} ] |}.

(** The record of one chain in the entity_poly block. *)
Definition poly_record (chain_id : Z) (seq : list ResName.t) (cid : string)
    (xs : list string) : string :=
  Py.ljust 4 (Py.str chain_id) ++ " polydeoxyribonucleotide no no" ++ CIF.nl
  ++ ";" ++ String.concat "" (map (fun s => "(" ++ ResName.as_str s ++ ")") seq)
  ++ CIF.nl ++ ";" ++ CIF.nl ++ String.concat "" xs ++ " " ++ cid ++ " ?"
  ++ CIF.nl.

(** The records of the block, chain by chain, given the chain labels [f]. *)
Inductive poly_rows (f : Z -> result string)
  : list (Z * list ResName.t) -> list string -> Prop :=
| poly_nil : poly_rows f [] []
| poly_cons c seq cid xs cs rs :
    f (c - 1) = Ok cid -> map_result ResName.as_X seq = Ok xs ->
    poly_rows f cs rs ->
    poly_rows f ((c, seq) :: cs) (poly_record c seq cid xs :: rs).

(** ** One sequence entry per residue *)

(** Two atoms of the same residue: same chain, same residue number. *)
Definition same_residue (a b : Atom) : bool :=
  (chain_of a =? chain_of b) && (resnum_of a =? resnum_of b).

(** The number of anchor atoms of [l] in the residue of [a]. *)
Definition anchor_count (a : Atom) (l : list Atom) : nat :=
  List.length (filter (fun b => CIF.is_C3p b && same_residue a b) l).

(** Every residue of the structure has exactly one anchor atom. *)
Definition one_anchor_per_residue (l : list Atom) : bool :=
  forallb (fun a => Nat.eqb (anchor_count a l) 1) l.

(** The residues of chain [c]: the distinct residue numbers of its atoms. *)
Definition residues_of (c : Z) (s : Structure) : list Z :=
  nodup Z.eq_dec (map resnum_of (filter (in_chain c) (atoms s))).

Definition mk_atom (nm rn : string) (c r : Z) : Atom :=
  {| atom_name := AtomName.make nm; res_name := ResName.make rn;
     chain_id := {| ChainID.n := c |}; res_number := {| Number.n := r |} |}.

(** Two chains; the first has two residues of three atoms each, the second
    one residue of three atoms; one atom of each residue is the anchor. *)
Definition sample_structure : Structure :=
  {| name := "sample";
     atoms :=
       [ mk_atom "P" "ADE5" 1 1; mk_atom "C3'" "ADE5" 1 1; mk_atom "O1P" "ADE5" 1 1;
         mk_atom "P" "CYT" 2 1; mk_atom "C3'" "CYT" 2 1; mk_atom "N1" "CYT" 2 1;
         mk_atom "P" "GUA3" 1 2; mk_atom "C3'" "GUA3" 1 2; mk_atom "N1" "GUA3" 1 2 ] |}.

(** ** Rows and records of the chains *)



(** ** Counting sequence entries *)

(** The number of entries of all the sequences of a dictionary. *)
Definition seq_total (seqs : Dict.t (K := Z) (V := list ResName.t)) : nat :=
  fold_right (fun kv acc => (List.length (snd kv) + acc)%nat) O seqs.

(** Every residue name of every sequence of a dictionary is non-empty. *)
Definition names_nonempty (seqs : Dict.t (K := Z) (V := list ResName.t))
  : Prop :=
  Forall (fun kv => Forall (fun r => ResName.name r <> EmptyString) (snd kv))
    seqs.

(** * Properties *)

(** ** Strings *)

Lemma length_append (s1 s2 : string) :
  String.length (s1 ++ s2) = (String.length s1 + String.length s2)%nat.
Proof.
  induction s1 as [|c s1 IH]; simpl; [reflexivity | now rewrite IH].
Qed.

Lemma all_append (p : ascii -> bool) (s1 s2 : string) :
  Py.all p (s1 ++ s2) = Py.all p s1 && Py.all p s2.
Proof.
  induction s1 as [|c s1 IH]; simpl; [reflexivity|].
  now rewrite IH, andb_assoc.
Qed.

Lemma ord_chr (z : Z) : 0 <= z < 256 -> Py.ord (Py.chr z) = z.
Proof.
  intros Hz. unfold Py.ord, Py.chr.
  rewrite N_ascii_embedding by lia. lia.
Qed.

(** ** Stripping and padding *)

Lemma lstrip_spaces (k : nat) (s : string) :
  Py.lstrip (Py.spaces k ++ s) = Py.lstrip s.
Proof. induction k as [|k IH]; simpl; [reflexivity | exact IH]. Qed.

Lemma rstrip_spaces (k : nat) : Py.rstrip (Py.spaces k) = EmptyString.
Proof. induction k as [|k IH]; simpl; [reflexivity | now rewrite IH]. Qed.

Lemma rstrip_append_spaces (s : string) (k : nat) :
  Py.rstrip (s ++ Py.spaces k) = Py.rstrip s.
Proof.
  induction s as [|c s IH]; simpl; [apply rstrip_spaces | now rewrite IH].
Qed.

Lemma append_nil_r (s : string) : s ++ EmptyString = s.
Proof. induction s as [|c s IH]; simpl; [reflexivity | now rewrite IH]. Qed.

Lemma lstrip_append_spaces (s : string) (k : nat) :
  exists j, Py.lstrip (s ++ Py.spaces k) = Py.lstrip s ++ Py.spaces j.
Proof.
  induction s as [|c s IH]; simpl.
  - exists O. rewrite <- (append_nil_r (Py.spaces k)), lstrip_spaces.
    reflexivity.
  - destruct (Py.is_space c); [exact IH | now exists k].
Qed.

Lemma strip_append_spaces (s : string) (k : nat) :
  Py.strip (s ++ Py.spaces k) = Py.strip s.
Proof.
  unfold Py.strip. destruct (lstrip_append_spaces s k) as [j ->].
  apply rstrip_append_spaces.
Qed.

Lemma strip_rjust (width : Z) (s : string) :
  Py.strip (Py.rjust width s) = Py.strip s.
Proof. unfold Py.rjust, Py.strip. now rewrite lstrip_spaces. Qed.

Lemma strip_ljust (width : Z) (s : string) :
  Py.strip (Py.ljust width s) = Py.strip s.
Proof. unfold Py.ljust. apply strip_append_spaces. Qed.

Lemma lstrip_clean (s : string) :
  leading Py.is_space s = false -> Py.lstrip s = s.
Proof. destruct s as [|c s]; simpl; [reflexivity | now intros ->]. Qed.

Lemma lstrip_leading (s : string) : leading Py.is_space (Py.lstrip s) = false.
Proof.
  induction s as [|c s IH]; simpl; [reflexivity|].
  destruct (Py.is_space c) eqn:E; [exact IH | exact E].
Qed.

Lemma rstrip_leading (s : string) :
  leading Py.is_space s = false -> leading Py.is_space (Py.rstrip s) = false.
Proof.
  destruct s as [|c s]; simpl; [reflexivity|]. intros Hc.
  destruct (Py.rstrip s); [rewrite Hc|]; exact Hc.
Qed.

Lemma rstrip_idempotent (s : string) : Py.rstrip (Py.rstrip s) = Py.rstrip s.
Proof.
  induction s as [|c s IH]; simpl; [reflexivity|].
  destruct (Py.rstrip s) as [|d r] eqn:E.
  - destruct (Py.is_space c) eqn:Hc; simpl; [reflexivity | now rewrite Hc].
  - change (Py.rstrip (String c (String d r))) with
      match Py.rstrip (String d r) with
      | EmptyString =>
          if Py.is_space c then EmptyString else String c EmptyString
      | r' => String c r'
      end.
    now rewrite IH.
Qed.

Lemma strip_idempotent (s : string) : Py.strip (Py.strip s) = Py.strip s.
Proof.
  unfold Py.strip.
  rewrite (lstrip_clean (Py.rstrip (Py.lstrip s)))
    by apply rstrip_leading, lstrip_leading.
  apply rstrip_idempotent.
Qed.

Lemma len_spaces (k : nat) : Py.len (Py.spaces k) = Z.of_nat k.
Proof.
  unfold Py.len. induction k as [|k IH]; simpl String.length; lia.
Qed.

Lemma len_append (s t : string) : Py.len (s ++ t) = Py.len s + Py.len t.
Proof. unfold Py.len. rewrite length_append. lia. Qed.

Lemma len_rjust (width : Z) (s : string) :
  Py.len (Py.rjust width s) = Z.max width (Py.len s).
Proof.
  unfold Py.rjust. rewrite len_append, len_spaces.
  pose proof (Nat2Z.is_nonneg (String.length s)). unfold Py.len in *. lia.
Qed.

Lemma len_ljust (width : Z) (s : string) :
  Py.len (Py.ljust width s) = Z.max width (Py.len s).
Proof.
  unfold Py.ljust. rewrite len_append, len_spaces.
  pose proof (Nat2Z.is_nonneg (String.length s)). unfold Py.len in *. lia.
Qed.


Lemma rstrip_no_space (s : string) :
  Py.all (fun c => negb (Py.is_space c)) s = true -> Py.rstrip s = s.
Proof.
  induction s as [|c s IH]; simpl; [reflexivity|].
  intros H. apply andb_true_iff in H as [Hc Hs].
  rewrite (IH Hs). apply negb_true_iff in Hc. rewrite Hc.
  destruct s; reflexivity.
Qed.

(** A string without whitespace is its own [strip]. *)
Lemma strip_no_space (s : string) :
  Py.all (fun c => negb (Py.is_space c)) s = true -> Py.strip s = s.
Proof.
  intros H. unfold Py.strip.
  assert (Hl : Py.lstrip s = s).
  { destruct s as [|c s]; [reflexivity|]. simpl in *.
    apply andb_true_iff in H as [Hc _]. apply negb_true_iff in Hc.
    now rewrite Hc. }
  rewrite Hl. now apply rstrip_no_space.
Qed.



(** ** Digits in a base *)

Section Base.

Variable alphabet : string.
Variable b : Z.
Hypothesis b_pos : 0 < b.
Hypothesis value_char :
  forall d, 0 <= d < b ->
    Utils.digit_value alphabet (Utils.digit_char alphabet d) = Some d.

Lemma render_length (k : nat) (n : Z) :
  String.length (Utils.render alphabet b k n) = k.
Proof.
  revert n. induction k as [|k IH]; intros n; simpl; [reflexivity|].
  rewrite length_append, IH. simpl. lia.
Qed.

Lemma parse_append (acc : Z) (s1 s2 : string) :
  Utils.parse alphabet b acc (s1 ++ s2)
  = (v <- Utils.parse alphabet b acc s1 ;; Utils.parse alphabet b v s2).
Proof.
  revert acc. induction s1 as [|c s1 IH]; intros acc; simpl; [reflexivity|].
  destruct (Utils.digit_value alphabet c); [apply IH | reflexivity].
Qed.

Lemma parse_render (k : nat) (acc n : Z) :
  Utils.parse alphabet b acc (Utils.render alphabet b k n)
  = Ok (acc * b ^ Z.of_nat k + n mod b ^ Z.of_nat k).
Proof.
  revert acc n. induction k as [|k IH]; intros acc n.
  - simpl. rewrite Z.mod_1_r. f_equal. lia.
  - cbn [Utils.render]. rewrite parse_append, IH. cbn [bind Utils.parse].
    rewrite value_char by (apply Z.mod_pos_bound; lia).
    cbn [Utils.parse]. f_equal.
    rewrite Nat2Z.inj_succ, Z.pow_succ_r by lia.
    rewrite (Z.rem_mul_r n b (b ^ Z.of_nat k)) by lia.
    ring.
Qed.

End Base.

(** Case analysis on an integer of a small range, from [lo] upwards. *)
Ltac enum_from d lo :=
  first
    [ lia
    | destruct (Z.eq_dec d lo) as [->|?];
      [ | let lo' := eval compute in (lo + 1) in enum_from d lo' ] ].

Lemma upper_value_char (d : Z) :
  0 <= d < 36 ->
  Utils.digit_value Utils.digits_upper (Utils.digit_char Utils.digits_upper d)
  = Some d.
Proof. intros Hd. enum_from d 0; reflexivity. Qed.

Lemma lower_value_char (d : Z) :
  0 <= d < 36 ->
  Utils.digit_value Utils.digits_lower (Utils.digit_char Utils.digits_lower d)
  = Some d.
Proof. intros Hd. enum_from d 0; reflexivity. Qed.

Lemma decimal_char (d : Z) :
  0 <= d < 10 ->
  Py.is_dec (Utils.digit_char Utils.digits_upper d) = true
  /\ Py.ord (Utils.digit_char Utils.digits_upper d) - 48 = d.
Proof. intros Hd. enum_from d 0; split; reflexivity. Qed.

Lemma int_digits_append (acc : Z) (s1 s2 : string) :
  Py.int_digits acc (s1 ++ s2)
  = (v <- Py.int_digits acc s1 ;; Py.int_digits v s2).
Proof.
  revert acc. induction s1 as [|c s1 IH]; intros acc; simpl; [reflexivity|].
  destruct (Py.is_dec c); [apply IH | reflexivity].
Qed.

Lemma int_digits_render (k : nat) (acc n : Z) :
  Py.int_digits acc (Utils.render Utils.digits_upper 10 k n)
  = Ok (acc * 10 ^ Z.of_nat k + n mod 10 ^ Z.of_nat k).
Proof.
  revert acc n. induction k as [|k IH]; intros acc n.
  - simpl. rewrite Z.mod_1_r. f_equal. lia.
  - cbn [Utils.render]. rewrite int_digits_append, IH. cbn [bind Py.int_digits].
    destruct (decimal_char (n mod 10)) as [Hdec Hord];
      [apply Z.mod_pos_bound; lia|].
    rewrite Hdec, Hord. f_equal.
    rewrite Nat2Z.inj_succ, Z.pow_succ_r by lia.
    rewrite (Z.rem_mul_r n 10 (10 ^ Z.of_nat k)) by lia.
    ring.
Qed.

Lemma render_decimal_all_dec (k : nat) (n : Z) :
  Py.all Py.is_dec (Utils.render Utils.digits_upper 10 k n) = true.
Proof.
  revert n. induction k as [|k IH]; intros n; simpl; [reflexivity|].
  rewrite all_append, IH. simpl.
  destruct (decimal_char (n mod 10)) as [Hdec _];
    [apply Z.mod_pos_bound; lia|].
  now rewrite Hdec.
Qed.

Lemma all_dec_all_digit (s : string) :
  Py.all Py.is_dec s = true -> Py.all Py.is_digit s = true.
Proof.
  induction s as [|c s IH]; simpl; [reflexivity|].
  intros H. apply andb_true_iff in H as [Hc Hs].
  rewrite (IH Hs), andb_true_r. unfold Py.is_digit. now rewrite Hc.
Qed.

Lemma isdigit_all_dec (s : string) :
  s <> EmptyString -> Py.all Py.is_dec s = true -> Py.isdigit s = true.
Proof.
  intros Hne Hall. apply all_dec_all_digit in Hall.
  destruct s; [contradiction | exact Hall].
Qed.

Lemma int_nonempty (s : string) :
  s <> EmptyString -> Py.int s = Py.int_digits 0 s.
Proof. destruct s; [contradiction | reflexivity]. Qed.

(** A zero-padded decimal of one digit or more passes [isdigit] and is
    read back by [int]. *)
Lemma decimal_round_trip (k : nat) (n : Z) :
  (1 <= k)%nat -> 0 <= n < 10 ^ Z.of_nat k ->
  let s := Utils.render Utils.digits_upper 10 k n in
  Py.isdigit s = true /\ Py.int s = Ok n.
Proof.
  intros Hk Hn s.
  assert (Hlen : String.length s = k) by apply render_length.
  assert (Hall : Py.all Py.is_digit s = true)
    by apply all_dec_all_digit, render_decimal_all_dec.
  assert (Hint : Py.int_digits 0 s = Ok n).
  { subst s. rewrite int_digits_render, Z.mod_small by lia. f_equal. }
  destruct s as [|c s']; [simpl in Hlen; lia|].
  split; assumption.
Qed.

(** ** The hybrid-36 codec *)

Lemma andb_range (a b c d : Z) :
  a <= b -> c < d -> (a <=? b) && (c <? d) = true.
Proof.
  intros H1 H2. apply andb_true_iff. split; [apply Z.leb_le | apply Z.ltb_lt]; lia.
Qed.

Lemma andb_range_out (a b c d : Z) :
  b < a \/ d <= c -> (a <=? b) && (c <? d) = false.
Proof.
  intros [H|H]; apply andb_false_iff; [left; apply Z.leb_gt | right; apply Z.ltb_ge]; lia.
Qed.

Lemma block_pos (w : Z) : 1 <= w -> 0 < 36 ^ (w - 1).
Proof. intros Hw. apply Z.pow_pos_nonneg; lia. Qed.

Lemma encode_decimal (w n : Z) :
  0 <= n < 10 ^ w ->
  Utils.int_2_h36 n w = Ok (Utils.render Utils.digits_upper 10 (Z.to_nat w) n).
Proof.
  intros Hn. unfold Utils.int_2_h36. cbv zeta.
  now rewrite andb_range by lia.
Qed.

Lemma encode_upper (w n : Z) :
  10 ^ w <= n < 10 ^ w + 26 * 36 ^ (w - 1) ->
  Utils.int_2_h36 n w
  = Ok (String (Py.chr (65 + (n - 10 ^ w) / 36 ^ (w - 1)))
          (Utils.render Utils.digits_upper 36 (Nat.pred (Z.to_nat w))
             ((n - 10 ^ w) mod 36 ^ (w - 1)))).
Proof.
  intros Hn. unfold Utils.int_2_h36. cbv zeta.
  rewrite andb_range_out by lia.
  now rewrite andb_range by lia.
Qed.

Lemma encode_lower (w n : Z) :
  1 <= w ->
  10 ^ w + 26 * 36 ^ (w - 1) <= n < 10 ^ w + 52 * 36 ^ (w - 1) ->
  Utils.int_2_h36 n w
  = Ok (String (Py.chr (97 + (n - 10 ^ w - 26 * 36 ^ (w - 1)) / 36 ^ (w - 1)))
          (Utils.render Utils.digits_lower 36 (Nat.pred (Z.to_nat w))
             ((n - 10 ^ w - 26 * 36 ^ (w - 1)) mod 36 ^ (w - 1)))).
Proof.
  intros Hw Hn. pose proof (block_pos w Hw) as HB.
  assert (0 < 10 ^ w) by (apply Z.pow_pos_nonneg; lia).
  unfold Utils.int_2_h36. cbv zeta.
  rewrite andb_range_out by lia.
  rewrite andb_range_out by lia.
  now rewrite andb_range by lia.
Qed.

Lemma hybrid_length (alphabet : string) (w : Z) (c : ascii) (r : Z) :
  1 <= w ->
  Py.len (String c (Utils.render alphabet 36 (Nat.pred (Z.to_nat w)) r)) = w.
Proof.
  intros Hw. unfold Py.len. cbn [String.length].
  rewrite render_length. lia.
Qed.

(** A string led by a letter is not a string of digits. *)
Lemma letter_not_isdigit (z : Z) (rest : string) :
  65 <= z <= 122 -> Py.isdigit (String (Py.chr z) rest) = false.
Proof.
  intros Hz. unfold Py.isdigit. cbn [Py.all].
  unfold Py.is_digit, Py.is_dec, Py.between. rewrite !ord_chr by lia.
  replace (z <=? 57) with false by (symmetry; apply Z.leb_gt; lia).
  replace (z =? 178) with false by (symmetry; apply Z.eqb_neq; lia).
  replace (z =? 179) with false by (symmetry; apply Z.eqb_neq; lia).
  replace (z =? 185) with false by (symmetry; apply Z.eqb_neq; lia).
  now rewrite andb_false_r.
Qed.

Lemma upper_char_no_space (d : Z) :
  0 <= d < 36 ->
  Py.is_space (Utils.digit_char Utils.digits_upper d) = false.
Proof. intros Hd. enum_from d 0; reflexivity. Qed.

Lemma lower_char_no_space (d : Z) :
  0 <= d < 36 ->
  Py.is_space (Utils.digit_char Utils.digits_lower d) = false.
Proof. intros Hd. enum_from d 0; reflexivity. Qed.

Lemma render_no_space (alphabet : string) (k : nat) (n : Z) :
  (forall d, 0 <= d < 36 ->
     Py.is_space (Utils.digit_char alphabet d) = false) ->
  Py.all (fun c => negb (Py.is_space c)) (Utils.render alphabet 36 k n) = true.
Proof.
  intros Hchar. revert n. induction k as [|k IH]; intros n; simpl;
    [reflexivity|].
  rewrite all_append, IH. simpl.
  now rewrite Hchar by (apply Z.mod_pos_bound; lia).
Qed.

(** On a string led by a letter and free of whitespace, the decoder is
    the inverse of the hybrid regime. *)
Lemma h36_2_int_hybrid (z : Z) (rest : string) :
  65 <= z <= 122 ->
  Py.all (fun c => negb (Py.is_space c)) rest = true ->
  Utils.h36_2_int (String (Py.chr z) rest)
  = Utils.hybrid_2_int (String (Py.chr z) rest).
Proof.
  intros Hz Hrest. unfold Utils.h36_2_int. cbv zeta.
  rewrite strip_no_space.
  - now rewrite letter_not_isdigit.
  - cbn [Py.all]. rewrite Hrest, andb_true_r.
    unfold Py.is_space, Py.between. rewrite !ord_chr by lia.
    apply negb_true_iff.
    repeat match goal with
      | |- context [?a <=? ?b] => destruct (Z.leb_spec a b)
      | |- context [?a =? ?b] => destruct (Z.eqb_spec a b)
      end; try reflexivity; lia.
Qed.

Lemma decode_upper (w q r : Z) :
  1 <= w -> 0 <= q < 26 -> 0 <= r < 36 ^ (w - 1) ->
  Utils.h36_2_int
    (String (Py.chr (65 + q))
       (Utils.render Utils.digits_upper 36 (Nat.pred (Z.to_nat w)) r))
  = Ok (10 ^ w + q * 36 ^ (w - 1) + r).
Proof.
  intros Hw Hq Hr.
  rewrite h36_2_int_hybrid
    by (try lia; apply render_no_space, upper_char_no_space).
  unfold Utils.hybrid_2_int.
  rewrite hybrid_length by assumption. cbv zeta.
  unfold Py.is_upper, Py.between.
  rewrite !ord_chr by lia.
  replace ((65 <=? 65 + q) && (65 + q <=? 90)) with true
    by (symmetry; apply andb_true_iff; split; apply Z.leb_le; lia).
  rewrite parse_render by (try lia; apply upper_value_char).
  replace (Z.of_nat (Nat.pred (Z.to_nat w))) with (w - 1) by lia.
  cbn [bind]. rewrite Z.mod_small by assumption.
  f_equal. change (Py.ord "A") with 65. ring.
Qed.

Lemma decode_lower (w q r : Z) :
  1 <= w -> 0 <= q < 26 -> 0 <= r < 36 ^ (w - 1) ->
  Utils.h36_2_int
    (String (Py.chr (97 + q))
       (Utils.render Utils.digits_lower 36 (Nat.pred (Z.to_nat w)) r))
  = Ok (10 ^ w + 26 * 36 ^ (w - 1) + q * 36 ^ (w - 1) + r).
Proof.
  intros Hw Hq Hr.
  rewrite h36_2_int_hybrid
    by (try lia; apply render_no_space, lower_char_no_space).
  unfold Utils.hybrid_2_int.
  rewrite hybrid_length by assumption. cbv zeta.
  unfold Py.is_upper, Py.is_lower, Py.between.
  rewrite !ord_chr by lia.
  replace ((65 <=? 97 + q) && (97 + q <=? 90)) with false
    by (symmetry; apply andb_false_iff; right; apply Z.leb_gt; lia).
  replace ((97 <=? 97 + q) && (97 + q <=? 122)) with true
    by (symmetry; apply andb_true_iff; split; apply Z.leb_le; lia).
  rewrite parse_render by (try lia; apply lower_value_char).
  replace (Z.of_nat (Nat.pred (Z.to_nat w))) with (w - 1) by lia.
  cbn [bind]. rewrite Z.mod_small by assumption.
  f_equal. change (Py.ord "a") with 97. ring.
Qed.

(** C1. Hybrid-36 round trip: at every width [w >= 1], every [n] with
    [0 <= n < 10^w + 52*36^(w-1)] is encoded to a string of [w] characters
    that a [Number] built from it decodes back to [n]; below [10^w] the
    string consists of decimal digits only, in the first 26 blocks its
    leading character is an upper-case letter, and in the next 26 blocks
    a lower-case letter. *)
Theorem h36_round_trip (w n : Z) :
  1 <= w -> 0 <= n < 10 ^ w + 52 * 36 ^ (w - 1) ->
  exists s,
    Number.as_h36 {| Number.n := n |} w = Ok s
    /\ Py.len s = w
    /\ Number.make (PyStr s) = Ok {| Number.n := n |}
    /\ (n < 10 ^ w -> Py.all Py.is_dec s = true)
    /\ (10 ^ w <= n < 10 ^ w + 26 * 36 ^ (w - 1) ->
        leading Py.is_upper s = true)
    /\ (10 ^ w + 26 * 36 ^ (w - 1) <= n -> leading Py.is_lower s = true).
Proof.
  intros Hw Hn. pose proof (block_pos w Hw) as HB.
  assert (HD : 0 < 10 ^ w) by (apply Z.pow_pos_nonneg; lia).
  unfold Number.as_h36, Number.make, Number._convert_input,
    Number._convert_input_with. cbn [Number.n].
  destruct (Z_lt_dec n (10 ^ w)) as [Hdec|Hdec];
    [|destruct (Z_lt_dec n (10 ^ w + 26 * 36 ^ (w - 1))) as [Hup|Hup]].
  - (* decimal regime *)
    eexists. split; [apply encode_decimal; lia|].
    destruct (decimal_round_trip (Z.to_nat w) n) as [Hd Hi]; [lia | |].
    { rewrite Z2Nat.id by lia. lia. }
    split; [unfold Py.len; rewrite render_length; lia|].
    split; [cbv zeta; rewrite Hd, Hi; reflexivity|].
    split; [intros _; apply render_decimal_all_dec|].
    split; intros; lia.
  - (* upper-case blocks *)
    set (m := n - 10 ^ w).
    assert (Hq : 0 <= m / 36 ^ (w - 1) < 26).
    { split; [apply Z.div_pos; lia | apply Z.div_lt_upper_bound; lia]. }
    assert (Hr : 0 <= m mod 36 ^ (w - 1) < 36 ^ (w - 1))
      by (apply Z.mod_pos_bound; lia).
    eexists. split; [apply encode_upper; lia|]. fold m.
    split; [apply hybrid_length; assumption|].
    split.
    { cbv zeta. rewrite letter_not_isdigit by lia.
      rewrite decode_upper by assumption. cbn [bind]. do 2 f_equal.
      pose proof (Z.div_mod m (36 ^ (w - 1))). lia. }
    split; [intros; lia|].
    split; [|intros; lia].
    intros _. cbn [leading]. unfold Py.is_upper, Py.between.
    rewrite ord_chr by lia. apply andb_true_iff; split; apply Z.leb_le; lia.
  - (* lower-case blocks *)
    set (m := n - 10 ^ w - 26 * 36 ^ (w - 1)).
    assert (Hq : 0 <= m / 36 ^ (w - 1) < 26).
    { split; [apply Z.div_pos; lia | apply Z.div_lt_upper_bound; lia]. }
    assert (Hr : 0 <= m mod 36 ^ (w - 1) < 36 ^ (w - 1))
      by (apply Z.mod_pos_bound; lia).
    eexists. split; [apply encode_lower; lia|]. fold m.
    split; [apply hybrid_length; assumption|].
    split.
    { cbv zeta. rewrite letter_not_isdigit by lia.
      rewrite decode_lower by assumption. cbn [bind]. do 2 f_equal.
      pose proof (Z.div_mod m (36 ^ (w - 1))). lia. }
    split; [intros; lia|].
    split; [intros; lia|].
    intros _. cbn [leading]. unfold Py.is_lower, Py.between.
    rewrite ord_chr by lia. apply andb_true_iff; split; apply Z.leb_le; lia.
Qed.

Lemma h36_round_trip_witness :
  exists s,
    Number.as_h36 {| Number.n := 10035 |} 4 = Ok s
    /\ Py.len s = 4
    /\ Number.make (PyStr s) = Ok {| Number.n := 10035 |}
    /\ (10035 < 10 ^ 4 -> Py.all Py.is_dec s = true)
    /\ (10 ^ 4 <= 10035 < 10 ^ 4 + 26 * 36 ^ (4 - 1) ->
        leading Py.is_upper s = true)
    /\ (10 ^ 4 + 26 * 36 ^ (4 - 1) <= 10035 -> leading Py.is_lower s = true).
Proof.
  apply (h36_round_trip 4 10035); [lia | simpl; lia].
Defined.

(** C2. Upper-bound rejection: at every width [w >= 1], encoding an
    [n >= 10^w + 52*36^(w-1)] raises an error; no string is produced. *)
Theorem h36_upper_bound_rejected (w n : Z) :
  1 <= w -> 10 ^ w + 52 * 36 ^ (w - 1) <= n ->
  Number.as_h36 {| Number.n := n |} w = Raise ValueError.
Proof.
  intros Hw Hn. pose proof (block_pos w Hw) as HB.
  assert (HD : 0 < 10 ^ w) by (apply Z.pow_pos_nonneg; lia).
  unfold Number.as_h36, Utils.int_2_h36. cbn [Number.n]. cbv zeta.
  now rewrite !andb_range_out by lia.
Qed.

Lemma h36_upper_bound_rejected_witness :
  Number.as_h36 {| Number.n := 2436112 |} 4 = Raise ValueError.
Proof.
  apply (h36_upper_bound_rejected 4 2436112); [lia | simpl; lia].
Defined.

(** C3. The worked examples of the encoder at width 4. *)
Theorem h36_width4_examples :
  Number.as_h36 {| Number.n := 0 |} 4 = Ok "0000"
  /\ Number.as_h36 {| Number.n := 9999 |} 4 = Ok "9999"
  /\ Number.as_h36 {| Number.n := 10000 |} 4 = Ok "A000"
  /\ Number.as_h36 {| Number.n := 10000 + 35 |} 4 = Ok "A00Z"
  /\ Number.as_h36 {| Number.n := 10000 + 26 * 36 ^ 3 |} 4 = Ok "a000".
Proof. repeat split; reflexivity. Qed.

(** ** Decoding an identifier from a string *)

(** On a string that has no whitespace to strip the code follows the rule. *)
Lemma convert_input_stripped (h : string -> result Z) (s : string) :
  Py.strip s = s ->
  Number._convert_input_with h (PyStr s) = decode_stripped h s
  /\ ChainID._convert_input_with h (PyStr s) = decode_stripped h s.
Proof.
  intros Hs. unfold decode_stripped. cbv zeta. rewrite Hs.
  split; reflexivity.
Qed.

(** In the source the value of [inpt.strip()] is dropped: a numeral
    between spaces fails the digit test of the constructors and is handed
    to the decoder as it is, whatever the decoder. *)
Lemma padded_numeral_reaches_decoder (h : string -> result Z) :
  Number._convert_input_with h (PyStr " 12 ") = h " 12 "
  /\ ChainID._convert_input_with h (PyStr " 12 ") = h " 12 ".
Proof. split; reflexivity. Qed.




(** The numeral 12 with a space on each side decodes to 12. *)
Example padded_twelve :
  Number._convert_input (PyStr " 12 ") = Ok 12
  /\ ChainID._convert_input (PyStr " 12 ") = Ok 12.
Proof. split; reflexivity. Qed.

(** ** Chain labels *)

(** A chain number of one digit is labelled by that digit. *)
Lemma chain_letter_one_digit (n width : Z) :
  0 <= n <= 9 ->
  ChainID.as_pdb4namd {| ChainID.n := n |} width
  = Ok (single_letter_of_last_digit n width).
Proof. intros Hn. enum_from n 0; reflexivity. Qed.

(** Every chain number from 10 to 19 is labelled by its leading digit. *)
Lemma chain_letter_teens (n width : Z) :
  10 <= n <= 19 ->
  ChainID.as_pdb4namd {| ChainID.n := n |} width = Ok (Py.rjust width "B").
Proof. intros Hn. enum_from n 10; reflexivity. Qed.

(** C4. At chain number 12 the label is read off the leading digit: the
    code answers ["B"], where the last digit of 12 gives ["C"] and the last
    digit of 13 gives ["D"]. *)
Theorem chain_letter_takes_leading_digit :
  ChainID.as_pdb4namd {| ChainID.n := 12 |} 1 = Ok "B"
  /\ single_letter_of_last_digit 12 1 = "C"
  /\ single_letter_of_successor 12 1 = "D".
Proof. repeat split; reflexivity. Qed.

(** ** Residue names *)

(** A name with a ['5'] loses its ['5'] characters and keeps any ['3']. *)
Lemma resname_five_first (s : string) :
  Py.contains "5" (Py.strip s) = true ->
  ResName._convert_input s = resname_lookup (Py.remove "5" (Py.strip s)).
Proof.
  intros H. unfold ResName._convert_input, resname_lookup. cbv zeta.
  now rewrite H.
Qed.

(** A name with a ['3'] and no ['5'] loses its ['3'] characters. *)
Lemma resname_three_second (s : string) :
  Py.contains "5" (Py.strip s) = false ->
  Py.contains "3" (Py.strip s) = true ->
  ResName._convert_input s = resname_lookup (Py.remove "3" (Py.strip s)).
Proof.
  intros H5 H3. unfold ResName._convert_input, resname_lookup. cbv zeta.
  now rewrite H5, H3.
Qed.

(** [replace] removes every occurrence of the digit, not one. *)
Example resname_every_occurrence :
  ResName._convert_input "5CYT5" = "DC"
  /\ ResName._convert_input "C3YT3" = "DC".
Proof. split; reflexivity. Qed.

(** C6. Terminus stripping: each legacy residue code followed by ['5'] or
    by ['3'] normalises to its canonical code, so ["CYT5"] and ["CYT3"]
    both give ["DC"]; the ['5'] is looked for first, so a name carrying
    both digits loses the ['5'] only. *)
Theorem resname_terminus_digit :
  Forall (fun '(legacy, canonical) =>
            ResName._convert_input (legacy ++ "5") = canonical
            /\ ResName._convert_input (legacy ++ "3") = canonical)
         ResName.NAMD
  /\ ResName._convert_input "CYT5" = "DC"
  /\ ResName._convert_input "CYT3" = "DC"
  /\ ResName._convert_input "GUA5" = "DG"
  /\ ResName._convert_input "GUA3" = "DG"
  /\ ResName._convert_input "THY5" = "DT"
  /\ ResName._convert_input "THY3" = "DT"
  /\ ResName._convert_input "ADE5" = "DA"
  /\ ResName._convert_input "ADE3" = "DA"
  /\ ResName._convert_input "CYT35" = "CYT3"
  /\ ResName._convert_input "CYT53" = "CYT3".
Proof.
  split; [repeat constructor | repeat split; reflexivity].
Qed.

(** ** Atom names in the legacy form *)

Lemma inverse_table :
  Dict.invert String.eqb AtomName.NAMD
  = [("OP1", "O1P"); ("OP2", "O2P"); ("C7", "C5M")].
Proof. reflexivity. Qed.

Lemma atom_name_one_char (self : AtomName.t) (width : Z) :
  Py.len (legacy_name self) = 1 ->
  AtomName.as_pdb4namd self width = Py.rjust width (legacy_name self ++ " ").
Proof.
  intros H. unfold AtomName.as_pdb4namd. cbv zeta. fold (legacy_name self).
  rewrite H. cbn [Z.eqb Pos.eqb]. unfold Py.ljust. rewrite H. reflexivity.
Qed.

Lemma atom_name_two_chars (self : AtomName.t) (width : Z) :
  Py.len (legacy_name self) = 2 ->
  AtomName.as_pdb4namd self width = Py.rjust width (legacy_name self).
Proof.
  intros H. unfold AtomName.as_pdb4namd. cbv zeta. fold (legacy_name self).
  rewrite H. cbn [Z.eqb Pos.eqb]. unfold Py.ljust. rewrite H.
  cbn [Z.sub Z.add Z.opp Z.pos_sub Z.to_nat Py.spaces Pos.pred_double].
  f_equal. clear. induction (legacy_name self); simpl; congruence.
Qed.

Lemma atom_name_longer (self : AtomName.t) (width : Z) :
  3 <= Py.len (legacy_name self) ->
  AtomName.as_pdb4namd self width = Py.rjust width (legacy_name self).
Proof.
  intros H. unfold AtomName.as_pdb4namd. cbv zeta. fold (legacy_name self).
  destruct (Z.eqb_spec (Py.len (legacy_name self)) 1); [lia|].
  destruct (Z.eqb_spec (Py.len (legacy_name self)) 2); [lia|].
  reflexivity.
Qed.

(** C9. At the two-character name ["N1"] and width 4 the code adds no
    trailing space: it answers ["  N1"], where the padding of the
    specification gives [" N1 "]. *)
Theorem atom_name_two_chars_unpadded :
  AtomName.as_pdb4namd (AtomName.make "N1") 4 = "  N1"
  /\ as_pdb4namd_padded (AtomName.make "N1") 4 = " N1 ".
Proof. split; reflexivity. Qed.

(** ** Dictionaries keyed by integers *)

Section DictZ.

Context {V : Type}.

Lemma get_set (k c : Z) (v : V) (d : Dict.t) :
  Dict.get Z.eqb c (Dict.set Z.eqb k v d)
  = if c =? k then Some v else Dict.get Z.eqb c d.
Proof.
  induction d as [|[k' v'] d IH]; simpl.
  - reflexivity.
  - destruct (Z.eqb_spec k k') as [->|Hk]; simpl.
    + destruct (c =? k'); reflexivity.
    + rewrite IH.
      destruct (Z.eqb_spec c k'), (Z.eqb_spec c k); congruence.
Qed.

Lemma keys_set (k : Z) (v : V) (d : Dict.t) :
  Dict.keys (Dict.set Z.eqb k v d)
  = if Dict.mem Z.eqb k d then Dict.keys d else (Dict.keys d ++ [k])%list.
Proof.
  unfold Dict.mem, Dict.keys.
  induction d as [|[k' v'] d IH]; simpl.
  - reflexivity.
  - destruct (k =? k'); simpl; [reflexivity|].
    rewrite IH. destruct (Dict.get Z.eqb k d); reflexivity.
Qed.

End DictZ.

(** ** The chain aggregation *)

Lemma first_seen_snoc (l : list Z) (x : Z) :
  first_seen (l ++ [x])
  = if existsb (Z.eqb x) l then first_seen l else (first_seen l ++ [x])%list.
Proof.
  induction l as [|y t IH]; simpl; [reflexivity|].
  rewrite IH. destruct (Z.eqb_spec x y) as [->|Hxy]; simpl.
  - destruct (existsb (Z.eqb y) t); [reflexivity|].
    rewrite filter_app. simpl. rewrite Z.eqb_refl. simpl.
    now rewrite app_nil_r.
  - destruct (existsb (Z.eqb x) t); [reflexivity|].
    rewrite filter_app. simpl.
    destruct (Z.eqb_spec x y); [contradiction | reflexivity].
Qed.

Lemma first_seen_In (l : list Z) (x : Z) : In x (first_seen l) <-> In x l.
Proof.
  induction l as [|y t IH]; simpl; [tauto|].
  rewrite filter_In, IH.
  destruct (Z.eqb_spec x y) as [->|Hxy]; simpl; intuition congruence.
Qed.


Lemma list_max_snoc (l : list Z) (x : Z) :
  list_max (l ++ [x])
  = Some match list_max l with
         | None => x
         | Some m => Z.max m x
         end.
Proof.
  destruct l as [|y t]; simpl; [reflexivity|].
  now rewrite fold_left_app.
Qed.

Lemma fold_max_spec (t : list Z) (x : Z) :
  In (fold_left Z.max t x) (x :: t)
  /\ Forall (fun y => y <= fold_left Z.max t x) (x :: t).
Proof.
  revert x. induction t as [|y t IH]; intros x; simpl.
  - split; [now left | constructor; [lia | constructor]].
  - destruct (IH (Z.max x y)) as [Hin Hall].
    inversion Hall as [|? ? Hhd Htl]; subst. split.
    + simpl in Hin. destruct Hin as [Hin|Hin]; [|now right; right].
      rewrite <- Hin.
      destruct (Z.max_spec x y) as [[_ ->]|[_ ->]]; [right; left | left]; reflexivity.
    + constructor; [lia|]. constructor; [lia | assumption].
Qed.

(** [list_max] answers an element of the list that bounds all of them. *)
Lemma list_max_spec (l : list Z) (m : Z) :
  list_max l = Some m -> In m l /\ Forall (fun y => y <= m) l.
Proof.
  destruct l as [|x t]; simpl; [discriminate|].
  intros [= <-]. apply fold_max_spec.
Qed.

Lemma filter_chain_nil (c : Z) (l : list Atom) :
  filter (in_chain c) l = [] <-> existsb (Z.eqb c) (map chain_of l) = false.
Proof.
  induction l as [|a l IH]; simpl; [tauto|].
  unfold in_chain at 1. rewrite (Z.eqb_sym c).
  destruct (chain_of a =? c); simpl; [split; discriminate | exact IH].
Qed.

Lemma list_max_none (l : list Z) : list_max l = None -> l = [].
Proof. destruct l; [reflexivity | discriminate]. Qed.

Lemma aggregated_step (l : list Atom) chains seqs (a : Atom) :
  aggregated l chains seqs ->
  aggregated (l ++ [a]) (fst (CIF.step (chains, seqs) a))
    (snd (CIF.step (chains, seqs) a)).
Proof.
  intros [Hkc Hks Hs Hc]. unfold CIF.step. cbv zeta.
  fold (chain_of a) (resnum_of a). cbn [fst snd].
  pose proof (Hs (chain_of a)) as Hsa. pose proof (Hc (chain_of a)) as Hca.
  pose proof (filter_chain_nil (chain_of a) l) as Hnil.
  assert (Hfilter : forall c,
    filter (in_chain c) (l ++ [a])
    = (filter (in_chain c) l ++ if chain_of a =? c then [a] else [])%list).
  { intros c. rewrite filter_app. simpl. unfold in_chain at 2.
    destruct (chain_of a =? c); reflexivity. }
  split.
  - (* keys of chains *)
    rewrite map_app. change (map chain_of [a]) with [chain_of a].
    rewrite first_seen_snoc.
    destruct (Dict.get Z.eqb (chain_of a) chains) as [cur|] eqn:Hg.
    + assert (Hex : existsb (Z.eqb (chain_of a)) (map chain_of l) = true).
      { apply not_false_iff_true. intros E.
        apply Hnil in E. rewrite E in Hca. discriminate. }
      rewrite Hex. destruct (resnum_of a >? cur); [|assumption].
      rewrite keys_set. unfold Dict.mem. now rewrite Hg.
    + symmetry in Hca. apply list_max_none, map_eq_nil in Hca.
      apply Hnil in Hca. rewrite Hca.
      rewrite keys_set. unfold Dict.mem. now rewrite Hg, Hkc.
  - (* keys of seqs *)
    rewrite map_app. change (map chain_of [a]) with [chain_of a].
    rewrite first_seen_snoc.
    destruct (Dict.get Z.eqb (chain_of a) seqs) as [seq|] eqn:Hg.
    + assert (Hex : existsb (Z.eqb (chain_of a)) (map chain_of l) = true).
      { apply not_false_iff_true. intros E.
        apply Hnil in E. rewrite E in Hsa. discriminate. }
      rewrite Hex, keys_set. unfold Dict.mem. now rewrite Hg.
    + assert (Hemp : filter (in_chain (chain_of a)) l = []).
      { destruct (filter (in_chain (chain_of a)) l); [reflexivity | discriminate]. }
      apply Hnil in Hemp. rewrite Hemp.
      rewrite keys_set. unfold Dict.mem. now rewrite Hg, Hks.
  - (* the sequences *)
    intros c. rewrite Hfilter.
    destruct (Z.eqb_spec (chain_of a) c) as [<-|Hne].
    + destruct (Dict.get Z.eqb (chain_of a) seqs) as [seq|];
        rewrite get_set, Z.eqb_refl;
        destruct (filter (in_chain (chain_of a)) l) as [|b l'];
        try discriminate; [|reflexivity].
      injection Hsa as ->. simpl. now rewrite map_app.
    + rewrite app_nil_r, <- Hs.
      destruct (Dict.get Z.eqb (chain_of a) seqs); rewrite get_set;
        (destruct (Z.eqb_spec c (chain_of a)); [congruence | reflexivity]).
  - (* the maxima *)
    intros c. rewrite Hfilter.
    destruct (Z.eqb_spec (chain_of a) c) as [<-|Hne].
    + rewrite map_app. change (map resnum_of [a]) with [resnum_of a].
      rewrite list_max_snoc, <- Hca.
      destruct (Dict.get Z.eqb (chain_of a) chains) as [cur|] eqn:Hg.
      * destruct (Z.gtb_spec (resnum_of a) cur).
        -- rewrite get_set, Z.eqb_refl. f_equal. lia.
        -- rewrite Hg. f_equal. lia.
      * now rewrite get_set, Z.eqb_refl.
    + rewrite app_nil_r, <- Hc.
      destruct (Dict.get Z.eqb (chain_of a) chains) as [cur|];
        [destruct (resnum_of a >? cur); [|reflexivity]|];
        rewrite get_set;
        (destruct (Z.eqb_spec c (chain_of a)); [congruence | reflexivity]).
Qed.

Lemma aggregated_fold (l : list Atom) :
  aggregated l (fst (fold_left CIF.step l ([], [])))
    (snd (fold_left CIF.step l ([], []))).
Proof.
  induction l as [|a l IH] using rev_ind.
  - split; reflexivity.
  - rewrite fold_left_app. simpl.
    destruct (fold_left CIF.step l ([], [])) as [chains seqs].
    now apply aggregated_step.
Qed.

(** The dictionaries of a CIF emitter are those of the loop over the
    anchor atoms of its structure. *)
Lemma aggregated_make (s : Structure) :
  aggregated (anchors s) (CIF.chains (CIF.make s)) (CIF.seqs (CIF.make s)).
Proof.
  pose proof (aggregated_fold (anchors s)) as H.
  unfold CIF.make, CIF._get_chains_seqs. cbv zeta.
  fold (anchors s).
  destruct (fold_left CIF.step (anchors s) ([], [])) as [chains seqs].
  exact H.
Qed.

(** ** The entity blocks *)

Lemma for_each_write {A : Type} (f : A -> string) (body : A -> io unit)
    (l : list A) (out : TextIO) :
  (forall x, body x = write (f x)) ->
  for_each l body out = (Ok tt, (out ++ map f l)%list).
Proof.
  intros Hbody. revert out. induction l as [|x l IH]; intros out; simpl.
  - now rewrite app_nil_r.
  - unfold io_bind. rewrite Hbody. unfold write at 1.
    rewrite IH, <- app_assoc. reflexivity.
Qed.

Lemma io_bind_write {B : Type} (s : string) (k : unit -> io B) (out : TextIO) :
  io_bind (write s) k out = k tt (out ++ [s])%list.
Proof. reflexivity. Qed.

(** C7. The entity block and the entity_src block print one row per chain
    after their template, and both rows of a chain follow the same test:
    below 500 the staple row and the synthetic source with taxonomy id
    32630, from 500 on the scaffold row and the unknown fields.  On the
    chains of maxima 499 and 500 the first is a staple and the second a
    scaffold. *)
Theorem staple_scaffold_rows (entity_txt entity_src_txt : string)
    (self : CIF.t) (out out' : TextIO) :
  (exists rows rows_src,
      CIF._write_entity entity_txt self out
      = (Ok tt, (out ++ entity_txt :: rows)%list)
      /\ CIF._write_entity_src entity_src_txt self out'
         = (Ok tt, (out' ++ entity_src_txt :: rows_src)%list)
      /\ block_rows (Dict.items (CIF.chains self)) rows rows_src)
  /\ CIF._write_entity entity_txt (CIF.make boundary_structure) []
     = (Ok tt, [entity_txt; staple_entity_row 1; scaffold_entity_row 2])
  /\ CIF._write_entity_src entity_src_txt (CIF.make boundary_structure) []
     = (Ok tt, [entity_src_txt; staple_src_row 1 499; scaffold_src_row 2 500]).
Proof.
  split; [|split; reflexivity].
  exists (map (fun '(chain_id, length) =>
                 if length <? 500 then staple_entity_row chain_id
                 else scaffold_entity_row chain_id)
              (Dict.items (CIF.chains self))).
  exists (map (fun '(chain_id, length) =>
                 if length <? 500 then staple_src_row chain_id length
                 else scaffold_src_row chain_id length)
              (Dict.items (CIF.chains self))).
  split; [|split].
  - unfold CIF._write_entity. cbv zeta. rewrite io_bind_write.
    erewrite for_each_write; [now rewrite <- app_assoc|].
    intros [chain_id length]. destruct (length <? 500); reflexivity.
  - unfold CIF._write_entity_src. cbv zeta. rewrite io_bind_write.
    erewrite for_each_write; [now rewrite <- app_assoc|].
    intros [chain_id length]. destruct (length <? 500); reflexivity.
  - induction (Dict.items (CIF.chains self)) as [|[chain_id length] cs IH];
      simpl; constructor; [|exact IH].
    destruct (Z.ltb_spec length 500); constructor; assumption.
Qed.

(** When the entity_poly block is written to the end, it holds one record
    per key of [seqs], in the order of the keys. *)
Lemma entity_poly_records (entity_poly_txt : string) (f : Z -> result string)
    (self : CIF.t) (out out' : TextIO) :
  CIF._write_entity_poly entity_poly_txt f self out = (Ok tt, out') ->
  exists rows,
    out' = (out ++ entity_poly_txt :: rows)%list
    /\ poly_rows f (Dict.items (CIF.seqs self)) rows.
Proof.
  unfold CIF._write_entity_poly. cbv zeta. rewrite io_bind_write.
  assert (Hloop : forall l o,
    for_each l (fun '(chain_id, seq) =>
      let n := Py.ljust 4 (Py.str chain_id) in
      c <~ io_lift (ChainID.make (PyInt chain_id)) ;;;
      cid <~ io_lift (CIF.as_chimera f c) ;;;
      let seq1 :=
        String.concat "" (map (fun s => "(" ++ ResName.as_str s ++ ")") seq) in
      xs <~ io_lift (map_result ResName.as_X seq) ;;;
      let seq2 := String.concat "" xs in
      write (n ++ " polydeoxyribonucleotide no no" ++ CIF.nl ++ ";" ++ seq1
               ++ CIF.nl ++ ";" ++ CIF.nl ++ seq2 ++ " " ++ cid ++ " ?"
               ++ CIF.nl)) o = (Ok tt, out') ->
    exists rows, out' = (o ++ rows)%list /\ poly_rows f l rows).
  { induction l as [|[c seq] l IH]; intros o; simpl.
    - intros [= <-]. exists []. split; [now rewrite app_nil_r | constructor].
    - unfold io_bind at 1. unfold io_bind at 1. unfold io_lift at 1.
      cbn [ChainID.make ChainID._convert_input ChainID._convert_input_with bind].
      unfold io_bind at 1. unfold io_lift at 1. unfold CIF.as_chimera.
      cbn [ChainID.n].
      destruct (f (c - 1)) as [cid|e] eqn:Hf; [|discriminate].
      unfold io_bind at 1. unfold io_lift at 1.
      destruct (map_result ResName.as_X seq) as [xs|e] eqn:Hx; [|discriminate].
      unfold write at 1. intros H. apply IH in H as (rows & -> & Hrows).
      exists (poly_record c seq cid xs :: rows). split.
      + symmetry. apply (app_assoc o [_] rows).
      + now constructor. }
  intros H. apply Hloop in H as (rows & -> & Hrows).
  exists rows. split; [now rewrite <- app_assoc | assumption].
Qed.

(** ** One sequence entry per residue *)

Lemma same_residue_refl (a : Atom) : same_residue a a = true.
Proof. unfold same_residue. now rewrite !Z.eqb_refl. Qed.

Lemma anchor_count_cons (a x : Atom) (l : list Atom) :
  (anchor_count a l <= anchor_count a (x :: l))%nat.
Proof.
  unfold anchor_count. simpl.
  destruct (CIF.is_C3p x && same_residue a x); simpl; lia.
Qed.

Lemma anchor_count_pos (a b : Atom) (l : list Atom) :
  In b l -> CIF.is_C3p b = true -> same_residue a b = true ->
  (1 <= anchor_count a l)%nat.
Proof.
  intros Hin Hp Hs. unfold anchor_count.
  assert (Hb : In b (filter (fun b => CIF.is_C3p b && same_residue a b) l)).
  { apply filter_In. split; [assumption | now rewrite Hp, Hs]. }
  destruct (filter _ l); [contradiction | simpl; lia].
Qed.

Lemma anchors_resnum_NoDup (c : Z) (l : list Atom) :
  (forall a, In a l -> (anchor_count a l <= 1)%nat) ->
  NoDup (map resnum_of (filter (in_chain c) (filter CIF.is_C3p l))).
Proof.
  induction l as [|x t IH]; intros Hcount; [constructor|].
  assert (Ht : NoDup (map resnum_of (filter (in_chain c) (filter CIF.is_C3p t)))).
  { apply IH. intros a Ha.
    pose proof (anchor_count_cons a x t). pose proof (Hcount a (or_intror Ha)).
    lia. }
  simpl. destruct (CIF.is_C3p x) eqn:Hp; [|exact Ht].
  simpl. destruct (in_chain c x) eqn:Hc; [|exact Ht].
  simpl. constructor; [|exact Ht].
  intros Hin. apply in_map_iff in Hin as (b & Hr & Hb).
  apply filter_In in Hb as [Hb Hcb]. apply filter_In in Hb as [Hb Hpb].
  assert (Hs : same_residue x b = true).
  { unfold same_residue, in_chain in *.
    apply Z.eqb_eq in Hc, Hcb. rewrite Hr, Hc, Hcb, !Z.eqb_refl. reflexivity. }
  pose proof (anchor_count_pos x b t Hb Hpb Hs) as Hpos.
  pose proof (Hcount x (or_introl eq_refl)) as Hx.
  unfold anchor_count in Hx, Hpos. simpl in Hx.
  rewrite Hp, same_residue_refl in Hx. simpl in Hx. lia.
Qed.

Lemma anchors_resnum_In (c r : Z) (l : list Atom) :
  (forall a, In a l -> (1 <= anchor_count a l)%nat) ->
  In r (map resnum_of (filter (in_chain c) (filter CIF.is_C3p l)))
  <-> In r (map resnum_of (filter (in_chain c) l)).
Proof.
  intros Hcount. rewrite !in_map_iff. split.
  - intros (b & Hr & Hb). exists b. split; [assumption|].
    apply filter_In in Hb as [Hb Hcb]. apply filter_In in Hb as [Hb _].
    now apply filter_In.
  - intros (a & Hr & Ha). apply filter_In in Ha as [Ha Hca].
    specialize (Hcount a Ha). unfold anchor_count in Hcount.
    destruct (filter (fun b => CIF.is_C3p b && same_residue a b) l)
      as [|b l'] eqn:Hf; [simpl in Hcount; lia|].
    assert (Hb : In b (filter (fun b => CIF.is_C3p b && same_residue a b) l))
      by (rewrite Hf; now left).
    apply filter_In in Hb as [Hb Hpb].
    apply andb_true_iff in Hpb as [Hpb Hs].
    unfold same_residue in Hs. apply andb_true_iff in Hs as [Hs1 Hs2].
    apply Z.eqb_eq in Hs1, Hs2. unfold in_chain in Hca. apply Z.eqb_eq in Hca.
    exists b. split; [congruence|].
    apply filter_In. split; [now apply filter_In|].
    unfold in_chain. apply Z.eqb_eq. congruence.
Qed.

Lemma one_anchor_count (l : list Atom) :
  one_anchor_per_residue l = true ->
  forall a, In a l -> anchor_count a l = 1%nat.
Proof.
  unfold one_anchor_per_residue. rewrite forallb_forall.
  intros H a Ha. now apply Nat.eqb_eq, H.
Qed.

(** C8. In a structure where every residue has exactly one anchor atom,
    each chain [c] of the structure has a sequence, which lists the residue
    names of the anchor atoms of [c] in document order and so has one entry
    per residue of [c], however many atoms a residue has; and the maximum
    recorded for [c] is the greatest residue number among its anchor
    atoms. *)
Theorem one_entry_per_residue (s : Structure) (c : Z) :
  one_anchor_per_residue (atoms s) = true ->
  In c (map chain_of (atoms s)) ->
  exists seq m,
    Dict.get Z.eqb c (CIF.seqs (CIF.make s)) = Some seq
    /\ seq = map res_name (anchors_of c s)
    /\ List.length seq = List.length (residues_of c s)
    /\ Dict.get Z.eqb c (CIF.chains (CIF.make s)) = Some m
    /\ In m (map resnum_of (anchors_of c s))
    /\ Forall (fun a => resnum_of a <= m) (anchors_of c s).
Proof.
  intros Hone Hc. pose proof (one_anchor_count _ Hone) as Hcount.
  assert (Hge : forall a, In a (atoms s) -> (1 <= anchor_count a (atoms s))%nat)
    by (intros a Ha; rewrite (Hcount a Ha); lia).
  assert (Hle : forall a, In a (atoms s) -> (anchor_count a (atoms s) <= 1)%nat)
    by (intros a Ha; rewrite (Hcount a Ha); lia).
  destruct (aggregated_make s) as [_ _ Hs Hm].
  specialize (Hs c). specialize (Hm c). fold (anchors_of c s) in Hs, Hm.
  (* the chain has an anchor atom *)
  assert (Hne : anchors_of c s <> []).
  { apply in_map_iff in Hc as (a & Hca & Ha).
    assert (Hr : In (resnum_of a) (map resnum_of (filter (in_chain c) (atoms s)))).
    { apply in_map. apply filter_In. split; [assumption|].
      unfold in_chain. now apply Z.eqb_eq. }
    apply (anchors_resnum_In c _ _ Hge) in Hr.
    unfold anchors_of, anchors. intros E. rewrite E in Hr. exact Hr. }
  destruct (anchors_of c s) as [|a0 rest] eqn:HA; [congruence|].
  destruct (list_max (map resnum_of (a0 :: rest))) as [m|] eqn:Hmax;
    [|discriminate].
  exists (map res_name (a0 :: rest)), m.
  destruct (list_max_spec _ _ Hmax) as [Hin Hall].
  repeat split; try assumption.
  - (* one entry per residue *)
    rewrite <- HA, length_map, <- (length_map resnum_of).
    unfold residues_of, anchors_of, anchors.
    apply Nat.le_antisymm; apply NoDup_incl_length.
    + now apply anchors_resnum_NoDup.
    + intros r Hr. apply nodup_In.
      now apply (anchors_resnum_In c _ _ Hge).
    + apply NoDup_nodup.
    + intros r Hr. apply nodup_In in Hr.
      now apply (anchors_resnum_In c _ _ Hge).
  - rewrite Forall_forall in *. intros a Ha. apply Hall. now apply in_map.
Qed.

Lemma one_entry_per_residue_witness :
  exists seq m,
    Dict.get Z.eqb 1 (CIF.seqs (CIF.make sample_structure)) = Some seq
    /\ seq = map res_name (anchors_of 1 sample_structure)
    /\ List.length seq = List.length (residues_of 1 sample_structure)
    /\ Dict.get Z.eqb 1 (CIF.chains (CIF.make sample_structure)) = Some m
    /\ In m (map resnum_of (anchors_of 1 sample_structure))
    /\ Forall (fun a => resnum_of a <= m) (anchors_of 1 sample_structure).
Proof.
  apply (one_entry_per_residue sample_structure 1);
    [reflexivity | simpl; auto].
Defined.

Example sample_aggregation :
  CIF.seqs (CIF.make sample_structure)
  = [(1, [ResName.make "ADE"; ResName.make "GUA"]); (2, [ResName.make "CYT"])]
  /\ CIF.chains (CIF.make sample_structure) = [(1, 2); (2, 1)].
Proof. split; reflexivity. Qed.

(** * Further properties of the code *)

(** ** Atom names *)

Lemma atom_lookup_cases (x : string) :
  (x = "O1P" \/ x = "O2P" \/ x = "C5M")
  \/ Dict.get String.eqb x AtomName.NAMD = None.
Proof.
  unfold AtomName.NAMD. simpl.
  destruct (String.eqb_spec x "O1P"); [tauto|].
  destruct (String.eqb_spec x "O2P"); [tauto|].
  destruct (String.eqb_spec x "C5M"); tauto.
Qed.

(** X1. Normalising an atom name twice gives what normalising it once
    gives, for every input string. *)
Theorem atom_name_normalisation_idempotent (s : string) :
  AtomName._convert_input (AtomName._convert_input s)
  = AtomName._convert_input s.
Proof.
  unfold AtomName._convert_input at 2 3. cbv zeta.
  destruct (atom_lookup_cases (Py.strip s)) as [[H|[H|H]]|H]; rewrite H;
    try reflexivity.
  unfold AtomName._convert_input. cbv zeta.
  now rewrite strip_idempotent, H.
Qed.

Lemma strip_as_pdb4namd (self : AtomName.t) (width : Z) :
  Py.strip (AtomName.as_pdb4namd self width) = Py.strip (legacy_name self).
Proof.
  unfold AtomName.as_pdb4namd. cbv zeta. fold (legacy_name self).
  destruct (Py.len (legacy_name self) =? 1);
    [|destruct (Py.len (legacy_name self) =? 2)];
    rewrite strip_rjust, ?strip_ljust; reflexivity.
Qed.

Lemma legacy_lookup_cases (x : string) :
  (x = "OP1" \/ x = "OP2" \/ x = "C7")
  \/ Dict.get String.eqb x (Dict.invert String.eqb AtomName.NAMD) = None.
Proof.
  rewrite inverse_table. simpl.
  destruct (String.eqb_spec x "OP1"); [tauto|].
  destruct (String.eqb_spec x "OP2"); [tauto|].
  destruct (String.eqb_spec x "C7"); tauto.
Qed.

(** X2. Round trip through the legacy form: the legacy rendering of an
    atom name, at any width, normalises back to the same canonical name. *)
Theorem atom_name_legacy_round_trip (s : string) (width : Z) :
  AtomName.make (AtomName.as_pdb4namd (AtomName.make s) width)
  = AtomName.make s.
Proof.
  unfold AtomName.make at 1 3. f_equal.
  unfold AtomName._convert_input at 1. cbv zeta.
  rewrite strip_as_pdb4namd.
  unfold legacy_name, AtomName.make, AtomName._convert_input.
  cbv zeta. cbn [AtomName.name].
  destruct (atom_lookup_cases (Py.strip s)) as [[H|[H|H]]|H]; rewrite H;
    try reflexivity.
  destruct (legacy_lookup_cases (Py.strip s)) as [[H'|[H'|H']]|H']; rewrite H';
    try reflexivity.
  now rewrite strip_idempotent, H.
Qed.

(** X3. Column width of the legacy atom name: when the name after the
    inverse table has at most [width] characters, and [width] is 2 or
    more, the rendering has exactly [width] characters and consists of the
    whole name between runs of spaces. *)
Theorem atom_name_column (self : AtomName.t) (width : Z) :
  Z.max 2 (Py.len (legacy_name self)) <= width ->
  Py.len (AtomName.as_pdb4namd self width) = width
  /\ exists a b,
       AtomName.as_pdb4namd self width
       = Py.spaces a ++ legacy_name self ++ Py.spaces b.
Proof.
  intros Hw. unfold AtomName.as_pdb4namd. cbv zeta. fold (legacy_name self).
  destruct (Z.eqb_spec (Py.len (legacy_name self)) 1) as [H1|H1];
    [|destruct (Z.eqb_spec (Py.len (legacy_name self)) 2) as [H2|H2]].
  - split; [rewrite len_rjust, len_ljust; lia|].
    unfold Py.rjust, Py.ljust. eauto.
  - split; [rewrite len_rjust, len_ljust; lia|].
    unfold Py.rjust, Py.ljust. eauto.
  - split; [rewrite len_rjust; lia|].
    unfold Py.rjust. eexists _, O. now rewrite append_nil_r.
Qed.

Lemma atom_name_column_witness :
  Py.len (AtomName.as_pdb4namd (AtomName.make "OP1") 4) = 4
  /\ exists a b,
       AtomName.as_pdb4namd (AtomName.make "OP1") 4
       = Py.spaces a ++ legacy_name (AtomName.make "OP1") ++ Py.spaces b.
Proof.
  apply (atom_name_column (AtomName.make "OP1") 4).
  change (Z.max 2 3 <= 4). lia.
Defined.


Lemma contains_append (c : ascii) (s t : string) :
  Py.contains c (s ++ t) = Py.contains c s || Py.contains c t.
Proof.
  induction s as [|d s IH]; simpl; [reflexivity|].
  now rewrite IH, orb_assoc.
Qed.

Lemma append_inv_tail (s t : string) (c : ascii) :
  s ++ String c EmptyString = t ++ String c EmptyString -> s = t.
Proof.
  revert t. induction s as [|a s IH]; intros [|b t]; simpl; intros H.
  - reflexivity.
  - injection H as _ H. destruct t; discriminate H.
  - injection H as _ H. destruct s; discriminate H.
  - injection H as -> H. f_equal. now apply IH.
Qed.

(** X5. The document form of atom names is injective: two atom names
    with the same document form are the same name, quoted or not. *)
Theorem atom_name_as_cif_injective (a b : AtomName.t) :
  AtomName.as_cif a = AtomName.as_cif b -> a = b.
Proof.
  destruct a as [x], b as [y]. unfold AtomName.as_cif. cbn [AtomName.name].
  destruct (Py.contains "'" x) eqn:Hx, (Py.contains "'" y) eqn:Hy; intros H.
  - injection H as H. apply append_inv_tail in H. now subst.
  - subst y. simpl in Hy. rewrite contains_append, Hx in Hy. discriminate.
  - subst x. simpl in Hx. rewrite contains_append, Hy in Hx. discriminate.
  - now subst.
Qed.

Lemma atom_name_as_cif_injective_witness :
  AtomName.make " C3' " = AtomName.make "C3'".
Proof.
  apply (atom_name_as_cif_injective (AtomName.make " C3' ") (AtomName.make "C3'")).
  reflexivity.
Defined.

(** ** Residue names *)

Lemma contains_remove_same (c : ascii) (s : string) :
  Py.contains c (Py.remove c s) = false.
Proof.
  induction s as [|d s IH]; simpl; [reflexivity|].
  destruct (Ascii.eqb c d) eqn:E; simpl; [exact IH | now rewrite E].
Qed.

Lemma contains_remove_other (c d : ascii) (s : string) :
  Ascii.eqb c d = false ->
  Py.contains c (Py.remove d s) = Py.contains c s.
Proof.
  intros Hcd. induction s as [|e s IH]; simpl; [reflexivity|].
  destruct (Ascii.eqb_spec d e) as [<-|Hde]; simpl.
  - now rewrite Hcd.
  - now rewrite IH.
Qed.

Lemma resname_lookup_cases (x : string) :
  (x = "CYT" \/ x = "GUA" \/ x = "THY" \/ x = "ADE")
  \/ resname_lookup x = x.
Proof.
  unfold resname_lookup, ResName.NAMD. simpl.
  destruct (String.eqb_spec x "CYT"); [tauto|].
  destruct (String.eqb_spec x "GUA"); [tauto|].
  destruct (String.eqb_spec x "THY"); [tauto|].
  destruct (String.eqb_spec x "ADE"); tauto.
Qed.

Lemma resname_lookup_digit (c : ascii) (x : string) :
  Py.contains c "CYTGUATHYADEDCDGDTDA" = false ->
  Py.contains c (resname_lookup x) = Py.contains c x.
Proof.
  intros Hc.
  destruct (resname_lookup_cases x) as [[-> | [-> | [-> | ->]]] | ->];
    try reflexivity; simpl in *;
    repeat match goal with
      | H : context [Ascii.eqb c ?d] |- _ =>
          destruct (Ascii.eqb c d); [discriminate H|]
      end; reflexivity.
Qed.

(** X6. A normalised residue name never contains the character ['5'],
    and it contains a ['3'] exactly when the stripped input had both a
    ['5'] and a ['3']: then only the ['5'] characters were removed. *)
Theorem resname_digits_left (s : string) :
  Py.contains "5" (ResName._convert_input s) = false
  /\ Py.contains "3" (ResName._convert_input s)
     = Py.contains "5" (Py.strip s) && Py.contains "3" (Py.strip s).
Proof.
  unfold ResName._convert_input. cbv zeta.
  set (x := Py.strip s).
  change (Py.contains "5"
            (resname_lookup
               (if Py.contains "5" x then Py.remove "5" x
                else if Py.contains "3" x then Py.remove "3" x else x)) = false
          /\ Py.contains "3"
               (resname_lookup
                  (if Py.contains "5" x then Py.remove "5" x
                   else if Py.contains "3" x then Py.remove "3" x else x))
             = Py.contains "5" x && Py.contains "3" x).
  rewrite !resname_lookup_digit by reflexivity.
  destruct (Py.contains "5" x) eqn:H5; [|destruct (Py.contains "3" x) eqn:H3].
  - rewrite contains_remove_same, contains_remove_other by reflexivity.
    split; reflexivity.
  - rewrite contains_remove_same, contains_remove_other, H5 by reflexivity.
    split; reflexivity.
  - rewrite H5, H3. split; reflexivity.
Qed.

Lemma resname_legacy_cases (self : ResName.t) (width : Z) :
  (exists legacy,
      In (legacy, ResName.name self) ResName.NAMD
      /\ ResName.as_pdb4namd self width = Ok (Py.rjust width legacy))
  \/ ((forall legacy, ~ In (legacy, ResName.name self) ResName.NAMD)
      /\ ResName.as_pdb4namd self width = Raise KeyError).
Proof.
  destruct self as [x]. unfold ResName.as_pdb4namd. cbn [ResName.name].
  change (Dict.invert String.eqb ResName.NAMD)
    with [("DC", "CYT"); ("DG", "GUA"); ("DT", "THY"); ("DA", "ADE")].
  unfold ResName.NAMD. simpl.
  destruct (String.eqb_spec x "DC") as [->|H1]; [left; eexists; split; [|reflexivity]; tauto|].
  destruct (String.eqb_spec x "DG") as [->|H2]; [left; eexists; split; [|reflexivity]; tauto|].
  destruct (String.eqb_spec x "DT") as [->|H3]; [left; eexists; split; [|reflexivity]; tauto|].
  destruct (String.eqb_spec x "DA") as [->|H4]; [left; eexists; split; [|reflexivity]; tauto|].
  right. split; [|reflexivity].
  intros legacy [H|[H|[H|[H|[]]]]]; congruence.
Qed.

(** X7. The legacy form of a residue name exists for the four canonical
    codes only: the call answers the right-justified legacy code when the
    name is a value of the table, and raises KeyError for any other name. *)
Theorem resname_legacy_or_key_error (self : ResName.t) (width : Z) :
  (exists legacy,
      In (legacy, ResName.name self) ResName.NAMD
      /\ ResName.as_pdb4namd self width = Ok (Py.rjust width legacy))
  \/ ((forall legacy, ~ In (legacy, ResName.name self) ResName.NAMD)
      /\ ResName.as_pdb4namd self width = Raise KeyError).
Proof. apply resname_legacy_cases. Qed.

(** X8. Round trip through the legacy form: when the legacy rendering of
    a residue name exists, it normalises back to the same name, at any
    width. *)
Theorem resname_legacy_round_trip (self : ResName.t) (width : Z) (s : string) :
  ResName.as_pdb4namd self width = Ok s ->
  ResName.make s = self.
Proof.
  intros H. destruct self as [x].
  destruct (resname_legacy_cases {| ResName.name := x |} width)
    as [(legacy & Hin & Hok)|[_ Herr]]; [|congruence].
  rewrite Hok in H. injection H as <-.
  unfold ResName.make, ResName._convert_input. cbv zeta.
  rewrite strip_rjust. cbn [ResName.name] in Hin.
  destruct Hin as [Hin|[Hin|[Hin|[Hin|[]]]]]; injection Hin as <- <-;
    reflexivity.
Qed.

Lemma resname_legacy_round_trip_witness :
  ResName.make "  CYT" = ResName.make "CYT5".
Proof.
  apply (resname_legacy_round_trip (ResName.make "CYT5") 5 "  CYT").
  reflexivity.
Defined.

Lemma last_char_append (pre : string) (c : ascii) :
  ResName.last_char (pre ++ String c EmptyString) = Some c.
Proof.
  induction pre as [|a pre IH]; simpl; [reflexivity|].
  rewrite IH. destruct (pre ++ String c EmptyString) eqn:E; [|reflexivity].
  destruct pre; discriminate E.
Qed.

(** X9. The one-letter code of a residue is the last character of its
    name, whatever the name; the call raises IndexError exactly when the
    name is empty. *)
Theorem resname_as_X_last (self : ResName.t) :
  (forall pre c,
      ResName.as_X {| ResName.name := pre ++ String c EmptyString |}
      = Ok (String c EmptyString))
  /\ (ResName.as_X self = Raise IndexError
      <-> ResName.name self = EmptyString).
Proof.
  split.
  - intros pre c. unfold ResName.as_X. cbn [ResName.name].
    now rewrite last_char_append.
  - destruct self as [x]. unfold ResName.as_X. cbn [ResName.name].
    destruct x as [|a x]; [simpl; tauto|].
    split; [|discriminate].
    destruct (ResName.last_char (String a x)) eqn:E; [discriminate|].
    exfalso. revert a E. induction x as [|b x IH]; intros a E; simpl in E.
    + discriminate.
    + now apply (IH b).
Qed.

(** ** Decimal numerals *)

Lemma uint_all_dec (u : Decimal.uint) :
  Py.all Py.is_dec (NilEmpty.string_of_uint u) = true.
Proof. induction u; simpl; auto. Qed.

Lemma int_digits_uint_acc (u : Decimal.uint) (acc : positive) :
  Py.int_digits (Z.pos acc) (NilEmpty.string_of_uint u)
  = Ok (Z.pos (Pos.of_uint_acc u acc)).
Proof.
  revert acc. induction u; intros acc; cbn [NilEmpty.string_of_uint Pos.of_uint_acc];
    [reflexivity | ..];
    (match goal with
     | |- Py.int_digits _ (String ?c _) = _ =>
         change (Py.int_digits (Z.pos acc) (String c (NilEmpty.string_of_uint u)))
           with (Py.int_digits (Z.pos acc * 10 + (Py.ord c - 48))
                   (NilEmpty.string_of_uint u))
     end);
    match goal with
    | |- Py.int_digits ?z _ = Ok (Z.pos (Pos.of_uint_acc _ ?q)) =>
        replace z with (Z.pos q) by (vm_compute Py.ord; lia)
    end; apply IHu.
Qed.

Lemma int_digits_uint (u : Decimal.uint) :
  Py.int_digits 0 (NilEmpty.string_of_uint u) = Ok (Z.of_N (Pos.of_uint u)).
Proof.
  induction u; cbn [NilEmpty.string_of_uint Pos.of_uint];
    [reflexivity | exact IHu | ..];
    match goal with
    | |- Py.int_digits 0 (String ?c _) = Ok (Z.of_N (N.pos (Pos.of_uint_acc _ ?q))) =>
        change (Py.int_digits 0 (String c (NilEmpty.string_of_uint u)))
          with (Py.int_digits (Z.pos q) (NilEmpty.string_of_uint u))
    end; apply int_digits_uint_acc.
Qed.

(** The decimal numeral of a natural number: digits only, not empty, and
    read back by [int]. *)
Lemma str_nonneg (n : Z) :
  0 <= n ->
  Py.all Py.is_dec (Py.str n) = true
  /\ Py.str n <> EmptyString
  /\ Py.int_digits 0 (Py.str n) = Ok n.
Proof.
  intros Hn. destruct n as [|p|p]; [repeat split; discriminate | | lia].
  unfold Py.str. cbn [Z.to_int NilZero.string_of_int].
  pose proof (Unsigned.to_uint_nonnil p) as Hnil.
  pose proof (Unsigned.of_to p) as Hof.
  assert (E : NilZero.string_of_uint (Pos.to_uint p)
              = NilEmpty.string_of_uint (Pos.to_uint p)).
  { destruct (Pos.to_uint p); [contradiction | reflexivity..]. }
  rewrite E. split; [apply uint_all_dec|]. split.
  - destruct (Pos.to_uint p); [contradiction | discriminate..].
  - rewrite int_digits_uint, Hof. reflexivity.
Qed.

(** X10. Round trip through the plain numeral: for every [n >= 0], a
    [Number] or a [ChainID] built from the string that [as_str] prints is
    [n] again, whatever the hybrid decoder is: the decoder is not called. *)
Theorem as_str_round_trip (h : string -> result Z) (n : Z) :
  0 <= n ->
  Number._convert_input_with h (PyStr (Number.as_str {| Number.n := n |}))
  = Ok n
  /\ ChainID._convert_input_with h (PyStr (ChainID.as_str {| ChainID.n := n |}))
     = Ok n.
Proof.
  intros Hn. destruct (str_nonneg n Hn) as (Hall & Hne & Hint).
  unfold Number._convert_input_with, ChainID._convert_input_with,
    Number.as_str, ChainID.as_str. cbn [Number.n ChainID.n]. cbv zeta.
  rewrite (isdigit_all_dec _ Hne Hall), (int_nonempty _ Hne), Hint.
  split; reflexivity.
Qed.

Lemma as_str_round_trip_witness :
  Number._convert_input_with Utils.h36_2_int
    (PyStr (Number.as_str {| Number.n := 10035 |})) = Ok 10035
  /\ ChainID._convert_input_with Utils.h36_2_int
       (PyStr (ChainID.as_str {| ChainID.n := 10035 |})) = Ok 10035.
Proof. apply (as_str_round_trip Utils.h36_2_int 10035). lia. Defined.

Lemma int_digits_not_dec (s : string) (acc : Z) :
  Py.all Py.is_dec s = false -> Py.int_digits acc s = Raise ValueError.
Proof.
  revert acc. induction s as [|c s IH]; intros acc; simpl; [discriminate|].
  destruct (Py.is_dec c); simpl; [apply IH | reflexivity].
Qed.

Lemma contains_not_dec (c : ascii) (s : string) :
  Py.is_dec c = false -> Py.contains c s = true ->
  Py.all Py.is_dec s = false.
Proof.
  intros Hc. induction s as [|d s IH]; simpl; [discriminate|].
  destruct (Ascii.eqb_spec c d) as [<-|_]; simpl.
  - now rewrite Hc.
  - intros H. rewrite (IH H). apply andb_false_r.
Qed.

(** X11. A string that passes [isdigit] and holds a superscript digit
    (two, three or one) makes the constructors raise ValueError: it is
    handed to [int], which refuses the superscript, and not to the hybrid
    decoder. *)
Theorem superscript_digit_rejected (h : string -> result Z) (s : string) :
  Py.isdigit s = true ->
  Py.contains "178" s || Py.contains "179" s || Py.contains "185" s = true ->
  Number._convert_input_with h (PyStr s) = Raise ValueError
  /\ ChainID._convert_input_with h (PyStr s) = Raise ValueError.
Proof.
  intros Hd Hsup.
  assert (Hn : Py.all Py.is_dec s = false).
  { apply orb_true_iff in Hsup as [Hsup|Hsup];
      [apply orb_true_iff in Hsup as [Hsup|Hsup]|];
      revert Hsup; apply contains_not_dec; reflexivity. }
  unfold Number._convert_input_with, ChainID._convert_input_with. cbv zeta.
  rewrite Hd. destruct s as [|c s]; [discriminate Hd|].
  unfold Py.int. rewrite (int_digits_not_dec _ 0 Hn). split; reflexivity.
Qed.

Lemma superscript_digit_rejected_witness :
  Number._convert_input_with Utils.h36_2_int
    (PyStr (String "178"%char "5")) = Raise ValueError
  /\ ChainID._convert_input_with Utils.h36_2_int
       (PyStr (String "178"%char "5")) = Raise ValueError.
Proof.
  apply (superscript_digit_rejected Utils.h36_2_int (String "178"%char "5"));
    reflexivity.
Defined.

(** ** Chain labels *)

(** X12. The single-letter chain label of a chain number [n >= 0] is
    always one of the ten letters, right-justified; for a negative chain
    number the call raises ValueError (the sign is read as the digit). *)
Theorem chain_letter_total (n width : Z) :
  if n <? 0 then
    ChainID.as_pdb4namd {| ChainID.n := n |} width = Raise ValueError
  else
    exists d,
      0 <= d <= 9
      /\ ChainID.as_pdb4namd {| ChainID.n := n |} width
         = Ok (Py.rjust width
                 (String (Utils.digit_char ChainID.alphabet d) EmptyString)).
Proof.
  destruct n as [|p|p]; cbn [Z.ltb Z.compare].
  - exists 0. split; [lia | reflexivity].
  - unfold ChainID.as_pdb4namd, Py.str.
    cbn [ChainID.n Z.to_int NilZero.string_of_int].
    pose proof (Unsigned.to_uint_nonnil p) as Hnil.
    destruct (Pos.to_uint p); [contradiction | ..];
      [exists 0 | exists 1 | exists 2 | exists 3 | exists 4
       | exists 5 | exists 6 | exists 7 | exists 8 | exists 9];
      (split; [lia | reflexivity]).
  - reflexivity.
Qed.

Lemma len_zeros (k : nat) : Py.len (Py.zeros k) = Z.of_nat k.
Proof.
  unfold Py.len. induction k as [|k IH]; simpl String.length; lia.
Qed.

Lemma zeros_all_dec (k : nat) : Py.all Py.is_dec (Py.zeros k) = true.
Proof. induction k as [|k IH]; simpl; [reflexivity | exact IH]. Qed.

Lemma int_digits_zeros (k : nat) (s : string) :
  Py.int_digits 0 (Py.zeros k ++ s) = Py.int_digits 0 s.
Proof. induction k as [|k IH]; simpl; [reflexivity | exact IH]. Qed.

(** X13. The zero-padded segment name of a chain number [n >= 0] at a
    width [>= 0] has [width] characters, or as many as the numeral needs
    when that is more, and a [ChainID] built from it is [n] again, whatever
    the hybrid decoder is. *)
Theorem seg_name_round_trip (h : string -> result Z) (n width : Z) :
  0 <= n -> 0 <= width ->
  exists s,
    ChainID.as_segName4namd {| ChainID.n := n |} width = Ok s
    /\ Py.len s = Z.max width (Py.len (Py.str n))
    /\ ChainID._convert_input_with h (PyStr s) = Ok n.
Proof.
  intros Hn Hw. destruct (str_nonneg n Hn) as (Hall & Hne & Hint).
  unfold ChainID.as_segName4namd, Py.format_0d. cbn [ChainID.n]. cbv zeta.
  destruct (Z.ltb_spec width 0); [lia|].
  destruct (Z.ltb_spec n 0); [lia|].
  rewrite Z.abs_eq by assumption.
  eexists. split; [reflexivity|]. cbn [append].
  set (k := Z.to_nat (width - Py.len "" - Py.len (Py.str n))).
  assert (Hk : Z.of_nat k = Z.max 0 (width - Py.len (Py.str n)))
    by (unfold k; change (Py.len "") with 0; lia).
  split.
  - rewrite len_append, len_zeros, Hk.
    pose proof (Nat2Z.is_nonneg (String.length (Py.str n))).
    unfold Py.len in *. lia.
  - assert (Hne' : Py.zeros k ++ Py.str n <> EmptyString).
    { destruct k; simpl; [assumption | discriminate]. }
    unfold ChainID._convert_input_with. cbv zeta.
    rewrite (isdigit_all_dec _ Hne')
      by (rewrite all_append, zeros_all_dec, Hall; reflexivity).
    now rewrite (int_nonempty _ Hne'), int_digits_zeros.
Qed.

Lemma seg_name_round_trip_witness :
  exists s,
    ChainID.as_segName4namd {| ChainID.n := 7 |} 4 = Ok s
    /\ Py.len s = Z.max 4 (Py.len (Py.str 7))
    /\ ChainID._convert_input_with Utils.h36_2_int (PyStr s) = Ok 7.
Proof. apply (seg_name_round_trip Utils.h36_2_int 7 4); lia. Defined.

(** ** The chain aggregation, without assumptions on the structure *)

(** X14. A chain gets a key in the dictionaries of a CIF emitter exactly
    when one of its atoms is an anchor atom: a chain without a C3' atom is
    left out of the entity blocks. *)
Theorem chain_listed_iff_anchor (s : Structure) (c : Z) :
  In c (Dict.keys (CIF.chains (CIF.make s)))
  <-> exists a, In a (atoms s) /\ CIF.is_C3p a = true /\ chain_of a = c.
Proof.
  destruct (aggregated_make s) as [Hkc _ _ _].
  rewrite Hkc, first_seen_In, in_map_iff. unfold anchors.
  split.
  - intros (a & Hc & Ha). apply filter_In in Ha as [Ha Hp]. eauto.
  - intros (a & Ha & Hp & Hc). exists a. split; [assumption|].
    now apply filter_In.
Qed.

(** X15. For any structure, the sequence of a chain lists the residue
    names of all the anchor atoms of the chain in document order, one entry
    per anchor atom, and the number recorded for the chain is the greatest
    residue number among them; a chain with no anchor atom has neither. *)
Theorem chains_seqs_characterised (s : Structure) (c : Z) :
  Dict.get Z.eqb c (CIF.seqs (CIF.make s))
  = match anchors_of c s with
    | [] => None
    | l => Some (map res_name l)
    end
  /\ Dict.get Z.eqb c (CIF.chains (CIF.make s))
     = list_max (map resnum_of (anchors_of c s)).
Proof.
  destruct (aggregated_make s) as [_ _ Hs Hm]. split; [apply Hs | apply Hm].
Qed.

Lemma seq_total_set (k : Z) (v : list ResName.t) (d : Dict.t) :
  (seq_total (Dict.set Z.eqb k v d)
   + match Dict.get Z.eqb k d with
     | Some old => List.length old
     | None => O
     end
   = seq_total d + List.length v)%nat.
Proof.
  induction d as [|[k' v'] d IH]; simpl; [lia|].
  destruct (k =? k'); simpl; lia.
Qed.

Lemma seq_total_step chains seqs (a : Atom) :
  seq_total (snd (CIF.step (chains, seqs) a)) = S (seq_total seqs).
Proof.
  unfold CIF.step. cbv zeta. cbn [snd].
  pose proof (seq_total_set (ChainID.n (chain_id a))) as H.
  destruct (Dict.get Z.eqb (ChainID.n (chain_id a)) seqs) as [seq|] eqn:E.
  - specialize (H (seq ++ [res_name a])%list seqs). rewrite E in H.
    rewrite length_app in H. simpl in H. lia.
  - specialize (H [res_name a] seqs). rewrite E in H. simpl in H. lia.
Qed.

Lemma seq_total_fold (l : list Atom) st :
  seq_total (snd (fold_left CIF.step l st))
  = (seq_total (snd st) + List.length l)%nat.
Proof.
  revert st. induction l as [|a l IH]; intros [chains seqs];
    cbn [fold_left List.length snd]; [lia|].
  rewrite IH, seq_total_step. lia.
Qed.

(** X16. The sequences of all chains together have as many entries as the
    structure has anchor atoms: every anchor atom is counted once, and no
    other atom is counted. *)
Theorem every_anchor_counted_once (s : Structure) :
  seq_total (CIF.seqs (CIF.make s)) = List.length (anchors s).
Proof.
  unfold CIF.make, CIF._get_chains_seqs. cbv zeta. fold (anchors s).
  pose proof (seq_total_fold (anchors s) ([], [])) as H.
  destruct (fold_left CIF.step (anchors s) ([], [])) as [chains seqs].
  exact H.
Qed.

(** ** The entity_poly block *)

Lemma names_nonempty_set (k : Z) (v : list ResName.t) (d : Dict.t) :
  names_nonempty d ->
  Forall (fun r => ResName.name r <> EmptyString) v ->
  names_nonempty (Dict.set Z.eqb k v d).
Proof.
  unfold names_nonempty. intros Hd Hv.
  induction d as [|[k' v'] d IH]; simpl.
  - constructor; [exact Hv | constructor].
  - inversion Hd as [|? ? Hhd Htl]; subst.
    destruct (k =? k'); constructor; auto.
Qed.

Lemma names_nonempty_get (k : Z) (v : list ResName.t) (d : Dict.t) :
  names_nonempty d -> Dict.get Z.eqb k d = Some v ->
  Forall (fun r => ResName.name r <> EmptyString) v.
Proof.
  unfold names_nonempty. intros Hd.
  induction d as [|[k' v'] d IH]; simpl; [discriminate|].
  inversion Hd as [|? ? Hhd Htl]; subst.
  destruct (k =? k'); [intros [= <-]; exact Hhd | now apply IH].
Qed.

Lemma names_nonempty_step chains seqs (a : Atom) :
  names_nonempty seqs -> ResName.name (res_name a) <> EmptyString ->
  names_nonempty (snd (CIF.step (chains, seqs) a)).
Proof.
  intros Hd Ha. unfold CIF.step. cbv zeta. cbn [snd].
  destruct (Dict.get Z.eqb (ChainID.n (chain_id a)) seqs) as [seq|] eqn:E;
    apply names_nonempty_set; try assumption.
  - apply Forall_app. split; [now apply (names_nonempty_get _ _ _ Hd E)|].
    constructor; [exact Ha | constructor].
  - constructor; [exact Ha | constructor].
Qed.

Lemma names_nonempty_fold (l : list Atom) st :
  names_nonempty (snd st) ->
  Forall (fun a => ResName.name (res_name a) <> EmptyString) l ->
  names_nonempty (snd (fold_left CIF.step l st)).
Proof.
  revert st. induction l as [|a l IH]; intros [chains seqs] Hst Hl;
    cbn [fold_left]; [exact Hst|].
  inversion Hl as [|? ? Ha Hl']; subst.
  apply IH; [|exact Hl']. now apply names_nonempty_step.
Qed.

Lemma names_nonempty_make (s : Structure) :
  Forall (fun a => ResName.name (res_name a) <> EmptyString) (anchors s) ->
  names_nonempty (CIF.seqs (CIF.make s)).
Proof.
  intros H. unfold CIF.make, CIF._get_chains_seqs. cbv zeta. fold (anchors s).
  pose proof (names_nonempty_fold (anchors s) ([], [])
                ltac:(constructor) H) as Hf.
  destruct (fold_left CIF.step (anchors s) ([], [])) as [chains seqs].
  exact Hf.
Qed.

Lemma last_char_nonempty (s : string) :
  s <> EmptyString -> exists c, ResName.last_char s = Some c.
Proof.
  induction s as [|a s IH]; [contradiction|]. intros _.
  destruct s as [|b s]; [now exists a|].
  destruct IH as [c Hc]; [discriminate|]. exists c. exact Hc.
Qed.

Lemma as_X_all_ok (seq : list ResName.t) :
  Forall (fun r => ResName.name r <> EmptyString) seq ->
  exists xs, map_result ResName.as_X seq = Ok xs.
Proof.
  induction 1 as [|r seq Hr _ [xs IH]]; simpl; [now exists []|].
  unfold ResName.as_X at 1.
  destruct (last_char_nonempty _ Hr) as [c ->]. cbn [bind].
  rewrite IH. cbn [bind]. eauto.
Qed.

Lemma entity_poly_succeeds (entity_poly_txt : string)
    (f : Z -> result string) (self : CIF.t) (out : TextIO) :
  Forall (fun kv => exists label, f (fst kv - 1) = Ok label) (CIF.seqs self) ->
  names_nonempty (CIF.seqs self) ->
  exists out', CIF._write_entity_poly entity_poly_txt f self out = (Ok tt, out').
Proof.
  intros Hf Hn. unfold CIF._write_entity_poly. cbv zeta.
  rewrite io_bind_write. unfold Dict.items.
  generalize (out ++ [entity_poly_txt])%list as o.
  induction (CIF.seqs self) as [|[c seq] l IH]; intros o; simpl.
  - eexists. reflexivity.
  - inversion Hn as [|? ? Hseq Hl]; subst. cbn [snd] in Hseq.
    inversion Hf as [|? ? Hlabel Hf']; subst. cbn [fst] in Hlabel.
    unfold io_bind at 1. unfold io_bind at 1. unfold io_lift at 1.
    cbn [ChainID.make ChainID._convert_input ChainID._convert_input_with bind].
    unfold io_bind at 1. unfold io_lift at 1. unfold CIF.as_chimera.
    cbn [ChainID.n].
    destruct Hlabel as [label ->].
    unfold io_bind at 1. unfold io_lift at 1.
    destruct (as_X_all_ok seq Hseq) as [xs ->].
    unfold write at 1. apply (IH Hf' Hl).
Qed.

(** X17. The entity_poly block is written to the end, one record per
    chain in the order of the chains, whenever the chain label exists for
    every chain that has an anchor atom and no anchor atom has an empty
    residue name. *)
Theorem entity_poly_complete (entity_poly_txt : string)
    (f : Z -> result string) (s : Structure) (out : TextIO) :
  (forall c, In c (map chain_of (anchors s)) ->
     exists label, f (c - 1) = Ok label) ->
  Forall (fun a => ResName.name (res_name a) <> EmptyString) (anchors s) ->
  exists rows,
    CIF._write_entity_poly entity_poly_txt f (CIF.make s) out
    = (Ok tt, (out ++ entity_poly_txt :: rows)%list)
    /\ poly_rows f (Dict.items (CIF.seqs (CIF.make s))) rows.
Proof.
  intros Hf Hs.
  assert (Hlabels : Forall (fun kv => exists label, f (fst kv - 1) = Ok label)
                      (CIF.seqs (CIF.make s))).
  { destruct (aggregated_make s) as [_ Hks _ _].
    apply Forall_forall. intros [c seq] Hin. cbn [fst]. apply Hf.
    apply first_seen_In. rewrite <- Hks. unfold Dict.keys.
    now apply (in_map fst) in Hin. }
  destruct (entity_poly_succeeds entity_poly_txt f (CIF.make s) out Hlabels
              (names_nonempty_make s Hs)) as [out' Hok].
  destruct (entity_poly_records _ _ _ _ _ Hok) as (rows & -> & Hrows).
  now exists rows.
Qed.

(** The label of the two chains of the sample and of no other. *)
Lemma entity_poly_complete_witness :
  exists rows,
    CIF._write_entity_poly "EP"
      (fun z => if z <? 2 then Ok (Py.str z) else Raise ValueError)
      (CIF.make sample_structure) []
    = (Ok tt, ([] ++ "EP" :: rows)%list)
    /\ poly_rows (fun z => if z <? 2 then Ok (Py.str z) else Raise ValueError)
         (Dict.items (CIF.seqs (CIF.make sample_structure))) rows.
Proof.
  apply (entity_poly_complete "EP"
           (fun z => if z <? 2 then Ok (Py.str z) else Raise ValueError)
           sample_structure []).
  - intros c Hc. simpl in Hc.
    repeat (destruct Hc as [<-|Hc]; [eexists; reflexivity|]).
    contradiction.
  - repeat constructor; discriminate.
Defined.

Lemma concat_cons (x : string) (xs : list string) :
  String.concat "" (x :: xs) = x ++ String.concat "" xs.
Proof.
  destruct xs; simpl; [now rewrite append_nil_r | reflexivity].
Qed.

(** X18. The one-letter sequence of a chain has exactly one character per
    entry of the chain's sequence. *)
Theorem one_letter_per_entry (seq : list ResName.t) (xs : list string) :
  map_result ResName.as_X seq = Ok xs ->
  String.length (String.concat "" xs) = List.length seq.
Proof.
  revert xs. induction seq as [|r seq IH]; intros xs; simpl.
  - now intros [= <-].
  - unfold ResName.as_X at 1.
    destruct (ResName.last_char (ResName.name r)) as [c|]; [|discriminate].
    cbn [bind].
    destruct (map_result ResName.as_X seq) as [ys|]; [|discriminate].
    cbn [bind]. intros [= <-].
    rewrite concat_cons. simpl. f_equal. now apply IH.
Qed.

Lemma one_letter_per_entry_witness :
  String.length (String.concat "" ["A"; "G"])
  = List.length [ResName.make "ADE5"; ResName.make "GUA3"].
Proof.
  apply (one_letter_per_entry [ResName.make "ADE5"; ResName.make "GUA3"]).
  reflexivity.
Defined.

(** ** The documents *)

Lemma replace_before (new pre t : string) :
  Py.contains "N" pre = false ->
  Py.replace "NCHAINS" new (pre ++ t) = pre ++ Py.replace "NCHAINS" new t.
Proof.
  unfold Py.replace. induction pre as [|c pre IH]; intros H; [reflexivity|].
  cbn [Py.contains] in H. apply orb_false_iff in H as [Hc Hpre].
  cbn [append Py.replace_from]. unfold Py.startswith at 1. rewrite Hc.
  cbn [andb].
  now rewrite IH.
Qed.

Lemma replace_at (new post : string) :
  Py.replace "NCHAINS" new ("NCHAINS" ++ post)
  = new ++ Py.replace "NCHAINS" new post.
Proof. reflexivity. Qed.

Lemma chains_count (s : Structure) :
  List.length (CIF.chains (CIF.make s))
  = List.length (first_seen (map chain_of (anchors s))).
Proof.
  destruct (aggregated_make s) as [Hkc _ _ _].
  rewrite <- Hkc. unfold Dict.keys. now rewrite length_map.
Qed.

(** X19. The chain count of the struct block: in a template whose text
    before the first [NCHAINS] has no ['N'], that [NCHAINS] is replaced by
    the number of distinct chains that have an anchor atom, and the block
    is written as one string. *)
Theorem pdbx_struct_chain_count (pre post : string) (s : Structure)
    (out : TextIO) :
  Py.contains "N" pre = false ->
  let count :=
    Py.str (Z.of_nat (List.length (first_seen (map chain_of (anchors s))))) in
  CIF._write_pdbx_struct (pre ++ "NCHAINS" ++ post) (CIF.make s) out
  = (Ok tt,
     (out ++ [(pre ++ count ++ Py.replace "NCHAINS" count post)%string])%list).
Proof.
  intros Hpre count. unfold CIF._write_pdbx_struct. cbv zeta.
  rewrite chains_count. fold count.
  now rewrite (replace_before count pre _ Hpre), replace_at.
Qed.

Lemma pdbx_struct_chain_count_witness :
  let count :=
    Py.str (Z.of_nat
              (List.length (first_seen (map chain_of (anchors sample_structure))))) in
  CIF._write_pdbx_struct ("chains " ++ "NCHAINS" ++ " of NCHAINS")
    (CIF.make sample_structure) []
  = (Ok tt,
     ([] ++ [("chains " ++ count ++ Py.replace "NCHAINS" count " of NCHAINS")%string])%list).
Proof.
  apply (pdbx_struct_chain_count "chains " " of NCHAINS" sample_structure []).
  reflexivity.
Defined.

Lemma for_each_lines (l : list string) (out : TextIO) :
  for_each l write out = (Ok tt, (out ++ l)%list).
Proof.
  rewrite (for_each_write (fun x => x)) by reflexivity. now rewrite map_id.
Qed.

Lemma entity_blocks_run (entity_txt entity_src_txt : string) (self : CIF.t)
    (out out' : TextIO) :
  exists rows rows_src,
    CIF._write_entity entity_txt self out
    = (Ok tt, (out ++ entity_txt :: rows)%list)
    /\ CIF._write_entity_src entity_src_txt self out'
       = (Ok tt, (out' ++ entity_src_txt :: rows_src)%list)
    /\ block_rows (Dict.items (CIF.chains self)) rows rows_src.
Proof.
  exists (map (fun '(chain_id, length) =>
                 if length <? 500 then staple_entity_row chain_id
                 else scaffold_entity_row chain_id)
              (Dict.items (CIF.chains self))).
  exists (map (fun '(chain_id, length) =>
                 if length <? 500 then staple_src_row chain_id length
                 else scaffold_src_row chain_id length)
              (Dict.items (CIF.chains self))).
  split; [|split].
  - unfold CIF._write_entity. cbv zeta. rewrite io_bind_write.
    erewrite for_each_write; [now rewrite <- app_assoc|].
    intros [chain_id length]. destruct (length <? 500); reflexivity.
  - unfold CIF._write_entity_src. cbv zeta. rewrite io_bind_write.
    erewrite for_each_write; [now rewrite <- app_assoc|].
    intros [chain_id length]. destruct (length <? 500); reflexivity.
  - induction (Dict.items (CIF.chains self)) as [|[chain_id length] cs IH];
      simpl; constructor; [|exact IH].
    destruct (Z.ltb_spec length 500); constructor; assumption.
Qed.

(** The entity_poly block, finished or not: what it has written when it
    stops. *)
Lemma entity_poly_run (entity_poly_txt : string) (f : Z -> result string)
    (self : CIF.t) (out : TextIO) :
  exists r rest,
    CIF._write_entity_poly entity_poly_txt f self out
    = (r, (out ++ entity_poly_txt :: rest)%list)
    /\ match r with
       | Ok _ => poly_rows f (Dict.items (CIF.seqs self)) rest
       | Raise _ => (List.length rest < List.length (CIF.seqs self))%nat
       end.
Proof.
  unfold CIF._write_entity_poly. cbv zeta. rewrite io_bind_write.
  unfold Dict.items.
  enough (H : forall o, exists r rest,
    for_each (CIF.seqs self) (fun '(chain_id, seq) =>
      let n := Py.ljust 4 (Py.str chain_id) in
      c <~ io_lift (ChainID.make (PyInt chain_id)) ;;;
      cid <~ io_lift (CIF.as_chimera f c) ;;;
      let seq1 :=
        String.concat "" (map (fun s => "(" ++ ResName.as_str s ++ ")") seq) in
      xs <~ io_lift (map_result ResName.as_X seq) ;;;
      let seq2 := String.concat "" xs in
      write (n ++ " polydeoxyribonucleotide no no" ++ CIF.nl ++ ";" ++ seq1
               ++ CIF.nl ++ ";" ++ CIF.nl ++ seq2 ++ " " ++ cid ++ " ?"
               ++ CIF.nl)) o = (r, (o ++ rest)%list)
    /\ match r with
       | Ok _ => poly_rows f (CIF.seqs self) rest
       | Raise _ => (List.length rest < List.length (CIF.seqs self))%nat
       end).
  { destruct (H (out ++ [entity_poly_txt])%list) as (r & rest & E & Hr).
    exists r, rest. split; [|exact Hr]. rewrite <- app_assoc in E. exact E. }
  induction (CIF.seqs self) as [|[c seq] l IH]; intros o; simpl.
  - exists (Ok tt), []. split; [now rewrite app_nil_r | constructor].
  - unfold io_bind at 1. unfold io_bind at 1. unfold io_lift at 1.
    cbn [ChainID.make ChainID._convert_input ChainID._convert_input_with bind].
    unfold io_bind at 1. unfold io_lift at 1. unfold CIF.as_chimera.
    cbn [ChainID.n].
    destruct (f (c - 1)) as [cid|e] eqn:Hf.
    2:{ exists (Raise e), []. split; [now rewrite app_nil_r | simpl; lia]. }
    unfold io_bind at 1. unfold io_lift at 1.
    destruct (map_result ResName.as_X seq) as [xs|e] eqn:Hx.
    2:{ exists (Raise e), []. split; [now rewrite app_nil_r | simpl; lia]. }
    unfold write at 1.
    destruct (IH (o ++ [poly_record c seq cid xs])%list) as (r & rest & E & Hr).
    exists r, (poly_record c seq cid xs :: rest). split.
    + rewrite <- app_assoc in E. exact E.
    + destruct r; [now constructor | simpl; lia].
Qed.

Lemma io_bind_run {A B : Type} (m : io A) (k : A -> io B) (out out' : TextIO)
    (a : A) :
  m out = (Ok a, out') -> io_bind m k out = k a out'.
Proof. intros H. unfold io_bind. now rewrite H. Qed.

Lemma header_run (header_txt : string) (self : CIF.t) (out : TextIO) :
  CIF._write_header header_txt self out
  = (Ok tt,
     (out ++ [("data_" ++ name (CIF.struct self) ++ CIF.nl)%string;
              header_txt])%list).
Proof.
  unfold CIF._write_header. cbv zeta. rewrite io_bind_write.
  unfold write. now rewrite <- app_assoc.
Qed.

Lemma pdbx_struct_run (pdbx_struct_txt : string) (self : CIF.t)
    (out : TextIO) :
  CIF._write_pdbx_struct pdbx_struct_txt self out
  = (Ok tt,
     (out ++ [Py.replace "NCHAINS"
                (Py.str (Z.of_nat (List.length (CIF.chains self))))
                pdbx_struct_txt])%list).
Proof. reflexivity. Qed.

Lemma atoms_run (atom_header_txt : string) (self_atoms : list string)
    (out : TextIO) :
  CIF._write_atoms atom_header_txt self_atoms out
  = (Ok tt, (out ++ atom_header_txt :: self_atoms)%list).
Proof.
  unfold CIF._write_atoms. cbv zeta.
  rewrite io_bind_write, for_each_lines. now rewrite <- app_assoc.
Qed.

(** X20. The CIF document is written block by block in a fixed order:
    the name line and the header, the struct block with the chain count,
    the atom header and the atom lines, the entity block and the
    entity_src block with one row per chain.  These five blocks are always
    written in full; the entity_poly block comes last, with one record per
    chain when the call returns, and with fewer records than chains when
    it raises, the earlier blocks staying written. *)
Theorem cif_write_blocks
    (header_txt pdbx_struct_txt atom_header_txt : string)
    (entity_txt entity_src_txt entity_poly_txt : string)
    (f : Z -> result string) (self : CIF.t) (self_atoms : list string)
    (out : TextIO) :
  exists rows rows_src r rest,
    CIF.write header_txt pdbx_struct_txt atom_header_txt entity_txt
      entity_src_txt entity_poly_txt f self self_atoms out
    = (r,
       (out
        ++ [("data_" ++ name (CIF.struct self) ++ CIF.nl)%string; header_txt;
            Py.replace "NCHAINS"
              (Py.str (Z.of_nat (List.length (CIF.chains self))))
              pdbx_struct_txt;
            atom_header_txt]
        ++ self_atoms
        ++ entity_txt :: rows
        ++ entity_src_txt :: rows_src
        ++ entity_poly_txt :: rest)%list)
    /\ block_rows (Dict.items (CIF.chains self)) rows rows_src
    /\ match r with
       | Ok _ => poly_rows f (Dict.items (CIF.seqs self)) rest
       | Raise _ => (List.length rest < List.length (CIF.seqs self))%nat
       end.
Proof.
  set (o4 := (out
        ++ [("data_" ++ name (CIF.struct self) ++ CIF.nl)%string; header_txt;
            Py.replace "NCHAINS"
              (Py.str (Z.of_nat (List.length (CIF.chains self))))
              pdbx_struct_txt;
            atom_header_txt] ++ self_atoms)%list).
  destruct (entity_blocks_run entity_txt entity_src_txt self o4
              (o4 ++ entity_txt ::
                 map (fun '(chain_id, length) =>
                        if length <? 500 then staple_entity_row chain_id
                        else scaffold_entity_row chain_id)
                     (Dict.items (CIF.chains self)))%list)
    as (rows & rows_src & He & Hs & Hrows).
  assert (Erows : rows = map (fun '(chain_id, length) =>
                        if length <? 500 then staple_entity_row chain_id
                        else scaffold_entity_row chain_id)
                     (Dict.items (CIF.chains self))).
  { clear - Hrows. induction Hrows as [|c r r' cs rs rs' Hc _ IH];
      [reflexivity|]. simpl. rewrite <- IH. f_equal.
    destruct Hc as [cid len Hlt|cid len Hge];
      [destruct (Z.ltb_spec len 500) | destruct (Z.ltb_spec len 500)];
      try lia; reflexivity. }
  rewrite <- Erows in Hs.
  destruct (entity_poly_run entity_poly_txt f self
              ((o4 ++ entity_txt :: rows) ++ entity_src_txt :: rows_src)%list)
    as (r & rest & Hp & Hr).
  exists rows, rows_src, r, rest. split; [|split; assumption].
  unfold CIF.write.
  rewrite (io_bind_run _ _ _ _ _ (header_run header_txt self out)).
  rewrite (io_bind_run _ _ _ _ _ (pdbx_struct_run pdbx_struct_txt self _)).
  rewrite (io_bind_run _ _ _ _ _ (atoms_run atom_header_txt self_atoms _)).
  replace (((out ++ [("data_" ++ name (CIF.struct self) ++ CIF.nl)%string;
                     header_txt])
             ++ [Py.replace "NCHAINS"
                   (Py.str (Z.of_nat (List.length (CIF.chains self))))
                   pdbx_struct_txt])
            ++ atom_header_txt :: self_atoms)%list with o4
    by (unfold o4; rewrite <- !app_assoc; reflexivity).
  rewrite (io_bind_run _ _ _ _ _ He), (io_bind_run _ _ _ _ _ Hs), Hp.
  f_equal. unfold o4. rewrite <- !app_assoc. reflexivity.
Qed.


(** ** Consistency between the blocks *)

Lemma block_rows_length (cs : list (Z * Z)) (rows rows_src : list string) :
  block_rows cs rows rows_src ->
  List.length rows = List.length cs /\ List.length rows_src = List.length cs.
Proof. induction 1; simpl; [split; reflexivity | lia]. Qed.

Lemma poly_rows_length (f : Z -> result string)
    (cs : list (Z * list ResName.t)) (rows : list string) :
  poly_rows f cs rows -> List.length rows = List.length cs.
Proof. induction 1; simpl; [reflexivity | lia]. Qed.

Lemma seqs_count (s : Structure) :
  List.length (CIF.seqs (CIF.make s))
  = List.length (first_seen (map chain_of (anchors s))).
Proof.
  destruct (aggregated_make s) as [_ Hks _ _].
  rewrite <- Hks. unfold Dict.keys. now rewrite length_map.
Qed.

(** X22. One chain count throughout the document: for an emitter built
    from a structure, the number put in place of [NCHAINS] is the number
    of rows of the entity block and of the entity_src block, and the
    number of records of the entity_poly block when that block is written
    to the end (fewer when it raises). *)
Theorem chain_count_consistent
    (pdbx_struct_txt entity_txt entity_src_txt entity_poly_txt : string)
    (f : Z -> result string) (s : Structure) (out : TextIO) :
  let k := List.length (first_seen (map chain_of (anchors s))) in
  exists rows rows_src r rest,
    CIF._write_pdbx_struct pdbx_struct_txt (CIF.make s) out
    = (Ok tt,
       (out ++ [Py.replace "NCHAINS" (Py.str (Z.of_nat k))
                  pdbx_struct_txt])%list)
    /\ CIF._write_entity entity_txt (CIF.make s) out
       = (Ok tt, (out ++ entity_txt :: rows)%list)
    /\ CIF._write_entity_src entity_src_txt (CIF.make s) out
       = (Ok tt, (out ++ entity_src_txt :: rows_src)%list)
    /\ CIF._write_entity_poly entity_poly_txt f (CIF.make s) out
       = (r, (out ++ entity_poly_txt :: rest)%list)
    /\ List.length rows = k
    /\ List.length rows_src = k
    /\ match r with
       | Ok _ => List.length rest = k
       | Raise _ => (List.length rest < k)%nat
       end.
Proof.
  intros k.
  destruct (entity_blocks_run entity_txt entity_src_txt (CIF.make s) out out)
    as (rows & rows_src & He & Hs & Hrows).
  destruct (entity_poly_run entity_poly_txt f (CIF.make s) out)
    as (r & rest & Hp & Hr).
  destruct (block_rows_length _ _ _ Hrows) as [L1 L2].
  unfold Dict.items in *. rewrite chains_count in L1, L2.
  exists rows, rows_src, r, rest.
  repeat (split; [assumption || idtac|]).
  - rewrite pdbx_struct_run, chains_count. reflexivity.
  - destruct r.
    + apply poly_rows_length in Hr. now rewrite Hr, seqs_count.
    + now rewrite seqs_count in Hr.
Qed.

(** X23. What decides staple or scaffold: the number recorded for a chain
    is below 500 exactly when every anchor atom of the chain has a residue
    number below 500; the count of residues plays no part. *)
Theorem staple_iff_all_below (s : Structure) (c m : Z) :
  Dict.get Z.eqb c (CIF.chains (CIF.make s)) = Some m ->
  (m < 500 <-> Forall (fun a => resnum_of a < 500) (anchors_of c s)).
Proof.
  intros Hm. destruct (aggregated_make s) as [_ _ _ Hc].
  specialize (Hc c). fold (anchors_of c s) in Hc. rewrite Hm in Hc.
  symmetry in Hc. apply list_max_spec in Hc as [Hin Hall].
  rewrite Forall_forall in *. split.
  - intros Hlt a Ha. specialize (Hall (resnum_of a) (in_map _ _ _ Ha)). lia.
  - intros H. apply in_map_iff in Hin as (a & <- & Ha). now apply H.
Qed.

Lemma staple_iff_all_below_witness :
  2 < 500 <-> Forall (fun a => resnum_of a < 500) (anchors_of 1 sample_structure).
Proof. apply (staple_iff_all_below sample_structure 1 2). reflexivity. Defined.

(** ** Keys, rows and records *)


